(** * Backport action: a shallow embedding of [src/utils.ts] and
    [src/backport.ts], with the properties of the orchestration engine.

    Layout: the JavaScript string operations and [stripTestPlanFromPRBody];
    the label router ([getBaseBranchFromLabel], [getBaseBranches]); the
    engine ([backportOnce], [backport]) as a state and error monad over an
    abstract runtime that answers commands and requests and keeps the log of
    every call with its outcome; a scripted runtime for concrete runs; then
    the lemmas and the claims C1 to C10. *)

From stdpp Require Import base tactics option list gmap strings pretty.
From Stdlib Require Import ZArith Lia.

Local Open Scope Z_scope.

(** ** JavaScript strings

    A JavaScript string is a finite sequence of code units; it is modelled
    by [string], one character per code unit.  The operations below are the
    [String.prototype] methods the sources call, with the clamping of their
    index arguments written out. *)

Module JS.

Fixpoint drop (n : nat) (s : string) : string :=
  match n, s with
  | S n', String _ s' => drop n' s'
  | _, _ => s
  end.

Fixpoint take (n : nat) (s : string) : string :=
  match n, s with
  | S n', String c s' => String c (take n' s')
  | _, _ => EmptyString
  end.

(** Offset of the first occurrence of [search] in [s], if any. *)
Fixpoint find (search s : string) : option nat :=
  if String.prefix search s then Some 0%nat
  else match s with
       | EmptyString => None
       | String _ s' => S <$> find search s'
       end.

(** [s.indexOf(search, position)]: the position is clamped to
    [0 .. s.length]; the answer is [-1] when nothing is found. *)
Definition indexOf (s search : string) (position : Z) : Z :=
  let len := Z.of_nat (String.length s) in
  let start := Z.to_nat (Z.min (Z.max position 0) len) in
  match find search (drop start s) with
  | Some k => Z.of_nat (start + k)
  | None => -1
  end.

(** How [slice] reads one index: negative ones count from the end. *)
Definition relative (len i : Z) : Z :=
  if i <? 0 then Z.max (len + i) 0 else Z.min i len.

(** [s.slice(start, end)]; [end_ = None] is the call with one argument. *)
Definition slice (s : string) (start : Z) (end_ : option Z) : string :=
  let len := Z.of_nat (String.length s) in
  let from := relative len start in
  let to := match end_ with Some e => relative len e | None => len end in
  take (Z.to_nat (Z.max (to - from) 0)) (drop (Z.to_nat from) s).

End JS.

(** ** [src/utils.ts] *)

Definition startDelimiter : string := "<!--".
Definition endDelimiter : string := "-->".

Definition stripTestPlanFromPRBody (body : string) : string :=
  let startIndex := JS.indexOf body startDelimiter 0 in
  if startIndex =? -1 then body
  else
    let endIndex :=
      JS.indexOf body endDelimiter
        (startIndex + Z.of_nat (String.length startDelimiter)) in
    if endIndex =? -1 then body
    else JS.slice body 0 (Some startIndex)
         +:+ JS.slice body (endIndex + Z.of_nat (String.length endDelimiter)) None.

(** [search] occurs in [s] at offset [k]. *)
Definition occurs_at (search s : string) (k : nat) : Prop :=
  ∃ pre post, s = pre +:+ search +:+ post ∧ String.length pre = k.

(** [s] holds no start delimiter that is followed by an end delimiter. *)
Definition no_delimiter_pair (s : string) : Prop :=
  ∀ pre mid post,
    s = pre +:+ startDelimiter +:+ mid +:+ endDelimiter +:+ post → False.


(** ** Values shared by the sources

    A thrown value is an [Error] with its message; [Result A] is a pure
    computation that either throws or returns an [A]. *)

Record Error := { message : string }.

Definition ensureError (error : Error) : Error := error.

Definition Result (A : Type) : Type := (Error + A)%type.

(** JavaScript truthiness of a [string | undefined | null] value. *)
Definition truthy (value : option string) : bool :=
  match value with
  | Some s => negb (String.eqb s "")
  | None => false
  end.

(** [array.map(f)] with a callback that may throw: the first throw ends
    the traversal. *)
Fixpoint Array_map {A B : Type} (f : A → Result B) (array : list A)
  : Result (list B) :=
  match array with
  | [] => inr []
  | x :: rest =>
      match f x with
      | inl error => inl error
      | inr y =>
          match Array_map f rest with
          | inl error => inl error
          | inr ys => inr (y :: ys)
          end
      end
  end.

(** lodash's [compact]: the array without its falsy entries. *)
Fixpoint compact (array : list (option string)) : list string :=
  match array with
  | [] => []
  | value :: rest =>
      if truthy value then default "" value :: compact rest else compact rest
  end.

(** [obj[key] = value] on a plain object created by [{}], for a number
    [value].  The finite map holds the own properties of the object.  The
    assignment creates or overwrites an own property for every key but
    [__proto__]: that key is the accessor inherited from
    [Object.prototype], and its setter ignores a value that is neither an
    object nor [null], so the object is left without an own property of
    that name.  (The other inherited properties are writable data
    properties, which an assignment shadows.) *)
Definition setProperty (obj : gmap string Z) (key : string) (value : Z)
  : gmap string Z :=
  if decide (key = "__proto__") then obj else <[key := value]> obj.

Definition dquote : string := String (Ascii.ascii_of_nat 34) EmptyString.

(** ** Regular expressions

    A pattern built without the global or sticky flag (as [index.ts] builds
    it) has no state: it is given by what [exec] answers for each input.  A
    match carries its [groups] object when the pattern has named groups;
    a named group that did not take part is absent from the map, which reads
    as [undefined] like a missing property does. *)

Module RegExp.

Record ExecArray := { groups : option (gmap string string) }.

Record t := {
  source : string;
  exec : string → option ExecArray;
}.

Definition test (re : t) (s : string) : bool :=
  match exec re s with
  | Some _ => true
  | None => false
  end.

(** [String(re)] for a pattern without flags. *)
Definition toString (re : t) : string := "/" +:+ source re +:+ "/".

End RegExp.

(** ** The triggering payload

    The fields of [PullRequestClosedEvent | PullRequestLabeledEvent] that
    [backport] reads; [label] is present on a labeled event only. *)

Module Label.
Record t := { name : string }.
End Label.

Module User.
Record t := { login : string }.
End User.

Module PullRequest.
Record t := {
  body : option string;
  labels : list Label.t;
  merge_commit_sha : option string;
  merged : option bool;
  merged_by : option User.t;
  number : Z;
  title : string;
  user : User.t;
}.
End PullRequest.

Module Repository.
Record t := {
  name : string;
  owner : User.t;
  clone_url : string;
}.
End Repository.

Module Payload.
Record t := {
  label : option Label.t;
  pull_request : PullRequest.t;
  repository : Repository.t;
}.
End Payload.

(** ** [src/backport.ts]: the label router *)

Definition getBaseBranchFromLabel (label : string) (labelRegExp : RegExp.t)
  : Result (option string) :=
  match RegExp.exec labelRegExp label with
  | None => inr None
  | Some result =>
      match RegExp.groups result with
      | None => inr None
      | Some groups =>
          let base := groups !! "base" in
          if negb (truthy base) then
            inl {| message :=
                     "RegExp " +:+ dquote +:+ RegExp.toString labelRegExp
                     +:+ dquote +:+ " matched " +:+ dquote +:+ label
                     +:+ dquote +:+ " but missed a " +:+ dquote +:+ "base"
                     +:+ dquote +:+ " named capturing group." |}
          else inr base
      end
  end.

Definition getBaseBranches (labelRegExp : RegExp.t) (payload : Payload.t)
  : Result (list string) :=
  match Payload.label payload with
  | Some label =>
      match getBaseBranchFromLabel (Label.name label) labelRegExp with
      | inl error => inl error
      | inr base => inr (if truthy base then [default "" base] else [])
      end
  | None =>
      match
        Array_map (λ label, getBaseBranchFromLabel (Label.name label) labelRegExp)
          (PullRequest.labels (Payload.pull_request payload))
      with
      | inl error => inl error
      | inr bases => inr (compact bases)
      end
  end.

(** The pattern matches [label] with named groups among which [base] is
    missing or empty: the case [getBaseBranchFromLabel] throws on. *)
Definition lacksBase (labelRegExp : RegExp.t) (label : string) : bool :=
  match RegExp.exec labelRegExp label with
  | Some result =>
      match RegExp.groups result with
      | Some groups => negb (truthy (groups !! "base"))
      | None => false
      end
  | None => false
  end.

(** The [base] capture of the match of [label], when there is a match
    that has one. *)
Definition baseCapture (labelRegExp : RegExp.t) (label : string)
  : option string :=
  match RegExp.exec labelRegExp label with
  | Some result =>
      match RegExp.groups result with
      | Some groups => if truthy (groups !! "base") then groups !! "base" else None
      | None => None
      end
  | None => None
  end.

(** The label names the router tests for an event. *)
Definition testedLabels (payload : Payload.t) : list string :=
  match Payload.label payload with
  | Some label => [Label.name label]
  | None => map Label.name (PullRequest.labels (Payload.pull_request payload))
  end.

(** ** The hosting API and the command runner

    The requests [backport.ts] sends, by route, each with the parameters
    the source passes. *)

Inductive Request :=
  (** GET /repos/{owner}/{repo} *)
  | GetRepo (owner repo : string)
  (** POST /repos/{owner}/{repo}/pulls *)
  | CreatePull (base body head owner repo title : string)
  (** POST /repos/{owner}/{repo}/pulls/{pull_number}/requested_reviewers *)
  | RequestReviewers (owner : string) (pull_number : Z) (repo : string)
      (reviewers : list string) (team_reviewers : option (list string))
  (** PUT /repos/{owner}/{repo}/issues/{issue_number}/labels *)
  | SetLabels (issue_number : Z) (labels : list string) (owner repo : string)
  (** POST /repos/{owner}/{repo}/issues/{issue_number}/comments *)
  | CreateComment (body : string) (issue_number : Z) (owner repo : string)
  (** POST /repos/{owner}/{repo}/issues/{issue_number}/labels *)
  | AddLabels (issue_number : Z) (labels : list string) (owner repo : string).

(** The fields of a response's [data] that the source reads. *)
Module Data.
Record t := {
  allow_merge_commit : bool;
  allow_rebase_merge : bool;
  number : Z;
}.
End Data.

(** What a run does to the outside, in order, each call with its outcome. *)
Inductive Event :=
  | EvInfo (msg : string)
  | EvWarning (msg : string)
  | EvError (error : Error)
  | EvStartGroup (name : string)
  | EvEndGroup
  | EvExec (commandLine : string) (args : list string) (cwd : option string)
      (outcome : option Error)
  | EvRequest (request : Request) (outcome : Result Data.t).

(** The collaborators outside the repository: the command runner of
    [@actions/exec] (a command that exits with a non-zero code rejects), the
    REST client of [@actions/github], and the [URL] class.  Each answers from
    a world state it may change. *)
Class Runtime := {
  World : Type;
  GitHub : Type;
  run_exec : string → list string → option string → World → option Error * World;
  run_request : GitHub → Request → World → Result Data.t * World;
  getOctokit : string → Result GitHub;
  (** [new URL(href)], then [username] and [password] set, then [toString()]. *)
  urlWithCredentials : string → string → string → Result string;
}.

(** ** Asynchronous code as a state and error monad

    One thread of control: every [await] runs to its end before the next
    statement, so a [Promise<A>] is a function from the state before to the
    outcome and the state after. *)

Section Monad.

Context `{Runtime}.

Record State := { world : World; log : list Event }.

Definition M (A : Type) : Type := State → Result A * State.

Definition ret {A : Type} (a : A) : M A := λ st, (inr a, st).

Definition throw {A : Type} (error : Error) : M A := λ st, (inl error, st).

Definition bind {A B : Type} (m : M A) (f : A → M B) : M B :=
  λ st, match m st with
        | (inl error, st') => (inl error, st')
        | (inr a, st') => f a st'
        end.

(** [try { body } catch (error) { handler }] *)
Definition tryCatch {A : Type} (body : M A) (handler : Error → M A) : M A :=
  λ st, match body st with
        | (inl error, st') => handler error st'
        | (inr a, st') => (inr a, st')
        end.

(** [try { body } finally { cleanup }], for a cleanup that cannot throw. *)
Definition tryFinally {A : Type} (body : M A) (cleanup : M unit) : M A :=
  λ st, match body st with
        | (r, st') => (r, snd (cleanup st'))
        end.

Definition emit (event : Event) : M unit :=
  λ st, (inr tt, {| world := world st; log := log st ++ [event] |}).

Definition liftResult {A : Type} (r : Result A) : M A := λ st, (r, st).

End Monad.

Notation "'let!' x ':=' m 'in' k" := (bind m (λ x, k))
  (at level 10, x name, m at level 100, k at level 200,
   format "'let!'  x  ':='  m  'in' '//' k").
Notation "m ';;;' k" := (bind m (λ _, k))
  (at level 100, k at level 200, right associativity,
   format "m  ';;;' '//' k").

(** ** The runtime's entry points, as the source imports them *)

Section Engine.

Context `{Runtime}.

(** [info], [warning] and [error] of [@actions/core] write to the log. *)
Definition info (msg : string) : M unit := emit (EvInfo msg).
Definition warning (msg : string) : M unit := emit (EvWarning msg).
Definition logError (error : Error) : M unit := emit (EvError error).

(** [group(name, fn)] of [@actions/core]: the group is closed whether
    [fn] returns or throws. *)
Definition group {A : Type} (name : string) (fn : M A) : M A :=
  emit (EvStartGroup name) ;;;
  tryFinally fn (emit EvEndGroup).

(** [exec(commandLine, args, { cwd })] of [@actions/exec]. *)
Definition exec (commandLine : string) (args : list string)
    (cwd : option string) : M unit :=
  λ st, let (outcome, w) := run_exec commandLine args cwd (world st) in
        (match outcome with Some error => inl error | None => inr tt end,
         {| world := w;
            log := log st ++ [EvExec commandLine args cwd outcome] |}).

(** [github.request(route, parameters)]; the answer is the response's
    [data]. *)
Definition request (github : GitHub) (req : Request) : M Data.t :=
  λ st, let (outcome, w) := run_request github req (world st) in
        (outcome, {| world := w; log := log st ++ [EvRequest req outcome] |}).

(** ** [src/backport.ts]: the engine *)

Definition squashWarning : string :=
  "Your repository allows merge commits and rebase merging.
 However, Backport only supports rebased and merged pull requests with a single commit and squashed and merged pull requests.
 Consider only allowing squash merging.
 See https://help.github.com/en/github/administering-a-repository/about-merge-methods-on-github for more information.".

Definition warnIfSquashIsNotTheOnlyAllowedMergeMethod
    (github : GitHub) (owner repo : string) : M unit :=
  let! data := request github (GetRepo owner repo) in
  if Data.allow_merge_commit data || Data.allow_rebase_merge data
  then warning squashWarning
  else ret tt.

(** The reviewers asked for a backport pull request. *)
Definition reviewersOf (author merged_by : string) : list string :=
  if negb (String.eqb author merged_by) && negb (String.eqb merged_by "")
  then [author; merged_by]
  else [author].

Definition teamReviewersOf (teamReviews : string) : option (list string) :=
  if negb (String.eqb teamReviews "") then Some [teamReviews] else None.

Definition backportOnce
    (author base body commitSha : string) (github : GitHub) (head : string)
    (labels : list string) (merged_by owner repo teamReviews title : string)
  : M Z :=
  let git := λ args : list string, exec "git" args (Some repo) in
  git ["switch"; base] ;;;
  git ["switch"; "--create"; head] ;;;
  tryCatch (git ["cherry-pick"; "-x"; commitSha])
    (λ error, git ["cherry-pick"; "--abort"] ;;; throw error) ;;;
  git ["push"; "--set-upstream"; "origin"; head] ;;;
  let! data := request github (CreatePull base body head owner repo title) in
  let number := Data.number data in
  request github
    (RequestReviewers owner number repo (reviewersOf author merged_by)
       (teamReviewersOf teamReviews)) ;;;
  (if bool_decide (0 < length labels)%nat
   then request github (SetLabels number labels owner repo) ;;; ret tt
   else ret tt) ;;;
  info ("PR #" +:+ pretty number +:+ " has been created.") ;;;
  ret number.

Definition getFailedBackportCommentBody
    (base commitSha errorMessage head : string) (prNumber : Z)
    (runUrl : string) : string :=
  let worktreePath := ".worktrees/backport-" +:+ base in
  "The backport to `"
  +:+ base
  +:+ "` failed at "
  +:+ runUrl
  +:+ ":
```
"
  +:+ errorMessage
  +:+ "
```

To backport this PR manually, you can either:

<details>
<summary>Via the sg tool</summary>

Use the `sg backport` command to backport your commit to the release branch.

```bash
sg backport -r "
  +:+ base
  +:+ " -p "
  +:+ pretty prNumber
  +:+ "
```
</details>

<details>
<summary>
Via your terminal
</summary>

To backport manually, run these commands in your terminal:

```bash
# Fetch latest updates from GitHub
git fetch
# Create a new working tree
git worktree add "
  +:+ worktreePath
  +:+ " "
  +:+ base
  +:+ "
# Navigate to the new working tree
cd "
  +:+ worktreePath
  +:+ "
# Create a new branch
git switch --create "
  +:+ head
  +:+ "
# Cherry-pick the merged commit of this pull request and resolve the conflicts
git cherry-pick -x --mainline 1 "
  +:+ commitSha
  +:+ "
# Push it to GitHub
git push --set-upstream origin "
  +:+ head
  +:+ "
# Go back to the original working tree
cd ../..
# Delete the working tree
git worktree remove "
  +:+ worktreePath
  +:+ "
```

If you encouter conflict, first resolve the conflict and stage all files, then run the commands below:
```bash
git cherry-pick --continue
# Push it to GitHub
git push --set-upstream origin "
  +:+ head
  +:+ "
# Go back to the original working tree
cd ../..
# Delete the working tree
git worktree remove "
  +:+ worktreePath
  +:+ "
```

- [ ] Follow above instructions to backport the commit.
- [ ] Create a pull request where the `base` branch is `"
  +:+ base
  +:+ "` and the `compare`/`head` branch is `"
  +:+ head
  +:+ "`., [click here to create the pull request](https://github.com/sourcegraph/sourcegraph/compare/"
  +:+ base
  +:+ "..."
  +:+ head
  +:+ "?expand=1).
</details>

Once the pull request has been created, please ensure the following:

- [ ] Make sure to tag `@sourcegraph/release` in the pull request description.

- [ ] kindly remove the `release-blocker` from this pull request.
".

Definition securityError : Error :=
  {| message := "For security reasons, this action should only run on merged PRs." |}.

(** The error a call ended with, if it failed. *)
Definition failure (event : Event) : option Error :=
  match event with
  | EvExec _ _ _ (Some error) => Some error
  | EvRequest _ (inl error) => Some error
  | _ => None
  end.

(** The calls of the version-control driver and of the publisher. *)
Definition attemptEvent (event : Event) : bool :=
  match event with
  | EvExec _ _ _ _ => true
  | EvRequest (CreatePull _ _ _ _ _ _) _ => true
  | EvRequest (RequestReviewers _ _ _ _ _) _ => true
  | EvRequest (SetLabels _ _ _ _) _ => true
  | _ => false
  end.

(** An attempt that threw [error]: driver and publisher calls only, one of
    which failed with [error]. *)
Definition failedAttempt (attempt : list Event) (error : Error) : Prop :=
  Forall (λ event, attemptEvent event = true) attempt
  ∧ ∃ event, event ∈ attempt ∧ failure event = Some error.

(** The two requests of the recovery. *)
Definition recoveryRequest (req : Request) : bool :=
  match req with
  | CreateComment _ _ _ _ => true
  | AddLabels _ _ _ _ => true
  | _ => false
  end.

(** What [backport] does before the loop: one repository query, log
    lines and commands. *)
Definition preludeEvent (event : Event) : bool :=
  match event with
  | EvRequest (GetRepo _ _) _ => true
  | EvWarning _ => true
  | EvInfo _ => true
  | EvExec _ _ _ _ => true
  | _ => false
  end.

(** A recovery request that was refused. *)
Definition recoveryFailure (event : Event) : bool :=
  match event with
  | EvRequest req (inl _) => recoveryRequest req
  | _ => false
  end.

(** The arguments of [backport].  The three templates are the functions
    their types announce: given their fields they return a string.  Numbers
    are the integers of the hosting API. *)
Section Backport.

Variable getBody : string → string → string → Z → string.
Variable getHead : string → Z → string.
Variable getTitle : string → Z → string → string.
Variable labelRegExp : RegExp.t.
Variable payload : Payload.t.
Variable runId : Z.
Variable serverUrl : string.
Variable teamReviews : string.
Variable token : string.

(** The constants [backport] reads off the payload. *)
Definition originalBody : option string :=
  PullRequest.body (Payload.pull_request payload).
Definition originalLabels : list Label.t :=
  PullRequest.labels (Payload.pull_request payload).
Definition originalMergedBy : option User.t :=
  PullRequest.merged_by (Payload.pull_request payload).
Definition prNumber : Z := PullRequest.number (Payload.pull_request payload).
Definition originalTitle : string :=
  PullRequest.title (Payload.pull_request payload).
Definition author : string :=
  User.login (PullRequest.user (Payload.pull_request payload)).
Definition repo : string := Repository.name (Payload.repository payload).
Definition owner : string :=
  User.login (Repository.owner (Payload.repository payload)).

(** The constants of one turn of the loop, for the target [base]. *)
Definition bodyFor (mergeCommitSha base : string) : string :=
  getBody base
    (if truthy originalBody
     then stripTestPlanFromPRBody (default "" originalBody)
     else "")
    mergeCommitSha prNumber.

Definition headFor (base : string) : string := getHead base prNumber.

Definition labelsFor (base : string) : list string :=
  let labels :=
    filter (λ label, RegExp.test labelRegExp label = false)
      (map Label.name originalLabels) in
  labels ++ ["backports"; "backported-to-" +:+ base].

Definition titleFor (base : string) : string :=
  getTitle base prNumber originalTitle.

Definition merged_by : string :=
  match originalMergedBy with
  | Some mergedBy => User.login mergedBy
  | None => ""
  end.

Definition runUrl : string :=
  serverUrl +:+ "/" +:+ owner +:+ "/" +:+ repo +:+ "/actions/runs/"
  +:+ pretty runId.

Definition groupName (base : string) : string :=
  "Backporting to " +:+ base +:+ " on " +:+ headFor base +:+ ".".

(** The two requests of the recovery from a failed target. *)
Definition failureComment (mergeCommitSha base : string) (error : Error)
  : Request :=
  CreateComment
    (getFailedBackportCommentBody base mergeCommitSha (message error)
       (headFor base) prNumber runUrl)
    prNumber owner repo.

Definition failureLabelling (base : string) : Request :=
  AddLabels prNumber
    ["backports"; "release-blocker"; "failed-backport-to-" +:+ base]
    owner repo.

(** One turn of the [for] loop over the base branches: [created] is the
    result object before the turn, the answer is the object after it.  The
    object [createdPullRequestBaseBranchToNumber] starts as [{}] and is
    modelled by the finite map of its own properties; the assignment
    [obj[base] = n] is [setProperty]. *)
Definition backportBase (github : GitHub) (mergeCommitSha : string)
    (created : gmap string Z) (base : string) : M (gmap string Z) :=
  group (groupName base)
    (tryCatch
       (let! backportPullRequestNumber :=
          backportOnce author base (bodyFor mergeCommitSha base)
            mergeCommitSha github (headFor base) (labelsFor base) merged_by
            owner repo teamReviews (titleFor base) in
        ret (setProperty created base backportPullRequestNumber))
       (λ _error,
          let error := ensureError _error in
          logError error ;;;
          request github (failureComment mergeCommitSha base error) ;;;
          request github (failureLabelling base) ;;;
          ret created)).

(** The [for (const base of baseBranches)] loop. *)
Fixpoint backportEach (github : GitHub) (mergeCommitSha : string)
    (baseBranches : list string) (created : gmap string Z)
  : M (gmap string Z) :=
  match baseBranches with
  | [] => ret created
  | base :: rest =>
      let! created' := backportBase github mergeCommitSha created base in
      backportEach github mergeCommitSha rest created'
  end.

Definition backport : M (gmap string Z) :=
  let mergeCommitSha :=
    PullRequest.merge_commit_sha (Payload.pull_request payload) in
  let merged := PullRequest.merged (Payload.pull_request payload) in
  if negb (bool_decide (merged = Some true)) || negb (truthy mergeCommitSha)
  then throw securityError
  else
    let mergeCommitSha := default "" mergeCommitSha in
    let! baseBranches := liftResult (getBaseBranches labelRegExp payload) in
    if bool_decide (length baseBranches = 0%nat)
    then info "No backports required." ;;; ret ∅
    else
      let! github := liftResult (getOctokit token) in
      warnIfSquashIsNotTheOnlyAllowedMergeMethod github owner repo ;;;
      info ("Backporting " +:+ mergeCommitSha +:+ " from #"
            +:+ pretty prNumber +:+ ".") ;;;
      let! cloneUrl :=
        liftResult
          (urlWithCredentials
             (Repository.clone_url (Payload.repository payload))
             "x-access-token" token) in
      exec "git" ["clone"; cloneUrl] None ;;;
      exec "git"
        ["config"; "--global"; "user.email";
         "github-actions[bot]@users.noreply.github.com"] None ;;;
      exec "git"
        ["config"; "--global"; "user.name"; "github-actions[bot]"] None ;;;
      backportEach github mergeCommitSha baseBranches ∅.

(** ** What a run leaves in the log

    The events of a target that goes through, given the answers to the
    three requests. *)
Definition publishedEvents (mergeCommitSha base : string)
    (d1 d2 d3 : Data.t) : list Event :=
  [ EvExec "git" ["switch"; base] (Some repo) None;
    EvExec "git" ["switch"; "--create"; headFor base] (Some repo) None;
    EvExec "git" ["cherry-pick"; "-x"; mergeCommitSha] (Some repo) None;
    EvExec "git" ["push"; "--set-upstream"; "origin"; headFor base]
      (Some repo) None;
    EvRequest
      (CreatePull base (bodyFor mergeCommitSha base) (headFor base) owner
         repo (titleFor base))
      (inr d1);
    EvRequest
      (RequestReviewers owner (Data.number d1) repo
         (reviewersOf author merged_by) (teamReviewersOf teamReviews))
      (inr d2);
    EvRequest (SetLabels (Data.number d1) (labelsFor base) owner repo)
      (inr d3);
    EvInfo ("PR #" +:+ pretty (Data.number d1) +:+ " has been created.") ].

(** How one target ended: its pull request was published, or its attempt
    threw [error] and the recovery was carried out. *)
Inductive Outcome :=
  | Backported (d1 d2 d3 : Data.t)
  | Recovered (attempt : list Event) (error : Error) (d4 d5 : Data.t).

Definition outcomeEvents (mergeCommitSha base : string) (o : Outcome)
  : list Event :=
  match o with
  | Backported d1 d2 d3 =>
      EvStartGroup (groupName base)
      :: publishedEvents mergeCommitSha base d1 d2 d3 ++ [EvEndGroup]
  | Recovered attempt error d4 d5 =>
      EvStartGroup (groupName base)
      :: attempt
      ++ [ EvError error;
           EvRequest (failureComment mergeCommitSha base error) (inr d4);
           EvRequest (failureLabelling base) (inr d5);
           EvEndGroup ]
  end.

(** What one outcome does to the result object. *)
Definition record (created : gmap string Z) (base : string) (o : Outcome)
  : gmap string Z :=
  match o with
  | Backported d1 _ _ => setProperty created base (Data.number d1)
  | Recovered _ _ _ _ => created
  end.

Fixpoint recordAll (created : gmap string Z) (baseBranches : list string)
    (os : list Outcome) : gmap string Z :=
  match baseBranches, os with
  | base :: rest, o :: os' => recordAll (record created base o) rest os'
  | _, _ => created
  end.

Fixpoint allEvents (mergeCommitSha : string) (baseBranches : list string)
    (os : list Outcome) : list Event :=
  match baseBranches, os with
  | base :: rest, o :: os' =>
      outcomeEvents mergeCommitSha base o ++ allEvents mergeCommitSha rest os'
  | _, _ => []
  end.

(** The events of a target whose recovery failed with [error]: the comment
    was refused ([commented = None]), or it was posted and the labelling
    was refused. *)
Definition abortedEvents (mergeCommitSha base : string)
    (attempt : list Event) (attemptError : Error)
    (commented : option Data.t) (error : Error) : list Event :=
  EvStartGroup (groupName base)
  :: attempt
  ++ [EvError attemptError]
  ++ match commented with
     | None =>
         [EvRequest (failureComment mergeCommitSha base attemptError)
            (inl error)]
     | Some d4 =>
         [EvRequest (failureComment mergeCommitSha base attemptError)
            (inr d4);
          EvRequest (failureLabelling base) (inl error)]
     end
  ++ [EvEndGroup].

(** An outcome is well formed when its attempt, if any, is a failed one. *)
Definition wellFormed (o : Outcome) : Prop :=
  match o with
  | Backported _ _ _ => True
  | Recovered attempt error _ _ => failedAttempt attempt error
  end.

(** The result object [m] of a run over [baseBranches], against the
    events [evs] of the run: every key is a routed base branch; a key maps
    to the number of a pull request whose publication is in the log in
    full; a routed base branch without a key, unless it is [__proto__],
    has its failed attempt in the log, followed by the failure comment and
    the failure labels, both accepted. *)
Definition accountedFor (baseBranches : list string)
    (mergeCommitSha : string) (m : gmap string Z) (evs : list Event) : Prop :=
  (∀ base, base ∈ dom m → base ∈ baseBranches)
  ∧ (∀ base number,
       m !! base = Some number →
       ∃ before d1 d2 d3 after,
         Data.number d1 = number
         ∧ evs = before
                 ++ outcomeEvents mergeCommitSha base (Backported d1 d2 d3)
                 ++ after)
  ∧ (∀ base,
       base ∈ baseBranches → base ≠ "__proto__" → m !! base = None →
       ∃ before attempt error d4 d5 after,
         failedAttempt attempt error
         ∧ evs = before
                 ++ outcomeEvents mergeCommitSha base
                      (Recovered attempt error d4 d5)
                 ++ after).

End Backport.

End Engine.

(** ** A scripted runtime and a sample event

    For concrete runs the outside world is a script: the list of answers
    the next external calls get, in order (an exhausted script answers
    success). *)

Inductive Answer :=
  | Succeeds (data : Data.t)
  | Fails (msg : string).

Definition noData : Data.t :=
  {| Data.allow_merge_commit := false;
     Data.allow_rebase_merge := false;
     Data.number := 0 |}.

Definition created (number : Z) : Answer :=
  Succeeds {| Data.allow_merge_commit := false;
              Data.allow_rebase_merge := false;
              Data.number := number |}.

Definition ok : Answer := Succeeds noData.

Definition scripted_exec (_ : string) (_ : list string) (_ : option string)
    (script : list Answer) : option Error * list Answer :=
  match script with
  | Fails msg :: rest => (Some {| message := msg |}, rest)
  | Succeeds _ :: rest => (None, rest)
  | [] => (None, [])
  end.

Definition scripted_request (_ : string) (_ : Request)
    (script : list Answer) : Result Data.t * list Answer :=
  match script with
  | Fails msg :: rest => (inl {| message := msg |}, rest)
  | Succeeds data :: rest => (inr data, rest)
  | [] => (inr noData, [])
  end.

#[local] Instance scripted : Runtime := {|
  World := list Answer;
  GitHub := string;
  run_exec := scripted_exec;
  run_request := scripted_request;
  getOctokit token :=
    if String.eqb token ""
    then inl {| message := "Parameter token or opts.auth is required" |}
    else inr token;
  urlWithCredentials href username password :=
    if String.prefix "https://" href
    then inr ("https://" +:+ username +:+ ":" +:+ password +:+ "@"
              +:+ JS.drop 8 href)
    else inl {| message := "Invalid URL" |};
|}.

Definition start (script : list Answer) : State :=
  {| world := script; log := [] |}.

(** The pattern [/base:(?<base>[^]+)/]: the first [base:] that has text
    after it matches, and the group is all of that text. *)
Definition afterBase : RegExp.t :=
  {| RegExp.source := "base:(?<base>[^]+)";
     RegExp.exec label :=
       let index := JS.indexOf label "base:" 0 in
       if (index =? -1) || (Z.of_nat (String.length label) <=? index + 5)
       then None
       else Some {| RegExp.groups :=
                      Some {[ "base" := JS.slice label (index + 5) None ]} |} |}.

(** A pattern without named groups, [/backport/]. *)
Definition unnamed : RegExp.t :=
  {| RegExp.source := "backport";
     RegExp.exec label :=
       if JS.indexOf label "backport" 0 =? -1 then None
       else Some {| RegExp.groups := None |} |}.

(** A pattern whose only named group is not [base], [/backport (?<to>.+)/]
    on labels of one line. *)
Definition misnamed : RegExp.t :=
  {| RegExp.source := "backport (?<to>.+)";
     RegExp.exec label :=
       let index := JS.indexOf label "backport " 0 in
       if (index =? -1) || (Z.of_nat (String.length label) <=? index + 9)
       then None
       else Some {| RegExp.groups :=
                      Some {[ "to" := JS.slice label (index + 9) None ]} |} |}.

Definition sampleHead (base : string) (number : Z) : string :=
  "backport-" +:+ pretty number +:+ "-to-" +:+ base.

Definition sampleTitle (base : string) (number : Z) (title : string) : string :=
  "[Backport " +:+ base +:+ "] " +:+ title.

Definition sampleBody (base body mergeCommitSha : string) (number : Z) : string :=
  "Backport " +:+ mergeCommitSha +:+ " from #" +:+ pretty number +:+ ".".

Definition samplePullRequest (labels : list string) (merged : option bool)
    (sha : option string) : PullRequest.t :=
  {| PullRequest.body := Some "Fix.<!-- test plan -->";
     PullRequest.labels := map Label.Build_t labels;
     PullRequest.merge_commit_sha := sha;
     PullRequest.merged := merged;
     PullRequest.merged_by := Some {| User.login := "bob" |};
     PullRequest.number := 42;
     PullRequest.title := "Fix the thing";
     PullRequest.user := {| User.login := "alice" |} |}.

(** A closed event of pull request #42. *)
Definition closedEvent (labels : list string) (merged : option bool)
    (sha : option string) : Payload.t :=
  {| Payload.label := None;
     Payload.pull_request := samplePullRequest labels merged sha;
     Payload.repository :=
       {| Repository.name := "repo";
          Repository.owner := {| User.login := "org" |};
          Repository.clone_url := "https://github.com/org/repo.git" |} |}.

Definition sampleLabels : list string :=
  ["backport base:5.3"; "backport base:5.4"; "team/x"].

(** Pull request #42, merged as [abc123], and the same not merged. *)
Definition sampleEvent : Payload.t :=
  closedEvent sampleLabels (Some true) (Some "abc123").

Definition unmergedEvent : Payload.t :=
  closedEvent sampleLabels (Some false) (Some "abc123").

(** The engine on an event, with sample templates and inputs. *)
Definition sampleRun (labelRegExp : RegExp.t) (payload : Payload.t)
    (script : list Answer) : Result (gmap string Z) * State :=
  backport sampleBody sampleHead sampleTitle labelRegExp payload
    7 "https://github.com" "release" "TOKEN" (start script).

(** The loop alone, over the two targets of the sample event. *)
Definition sampleLoop (script : list Answer)
  : Result (gmap string Z) * State :=
  backportEach sampleBody sampleHead sampleTitle afterBase sampleEvent
    7 "https://github.com" "release" "TOKEN" "abc123" ["5.3"; "5.4"] ∅
    (start script).

(** One attempt, for the target [5.4] of the sample event. *)
Definition sampleAttempt (script : list Answer) : Result Z * State :=
  backportOnce (author sampleEvent) "5.4"
    (bodyFor sampleBody sampleEvent "abc123" "5.4") "abc123" "TOKEN"
    (headFor sampleHead sampleEvent "5.4") (labelsFor afterBase sampleEvent "5.4")
    (merged_by sampleEvent) (owner sampleEvent) (repo sampleEvent) "release"
    (titleFor sampleTitle sampleEvent "5.4") (start script).

(** The answers to the calls made before the loop. *)
Definition preludeAnswers : list Answer := [ok; ok; ok; ok].

(** The cherry-pick onto [5.3] conflicts and the recovery goes through;
    the backport to [5.4] goes through as pull request #101. *)
Definition conflictThenPublished : list Answer :=
  [ok; ok; Fails "conflict"; ok; ok; ok;
   ok; ok; ok; ok; created 101; ok; ok].

(** The cherry-pick onto [5.3] conflicts and the failure comment is
    refused. *)
Definition conflictThenRefused : list Answer :=
  [ok; ok; Fails "conflict"; ok; Fails "comment refused"].

(** The names of the groups opened in a log, in order. *)
Definition groupsOpened (events : list Event) : list string :=
  omap (λ event, match event with
                 | EvStartGroup name => Some name
                 | _ => None
                 end) events.

(** ** Proof automation for runs of the engine *)

(** One external call at a time: name the oracle's answer, then go on with
    the state it leaves. *)
Ltac next_call :=
  match goal with
  | |- context [run_exec ?c ?a ?d ?w] =>
      let o := fresh "o" in
      let w' := fresh "w" in
      let E := fresh "Hcall" in
      destruct (run_exec c a d w) as [o w'] eqn:E; simpl;
      destruct o as [?error|]; simpl
  | |- context [run_request ?g ?r ?w] =>
      let o := fresh "o" in
      let w' := fresh "w" in
      let E := fresh "Hcall" in
      destruct (run_request g r w) as [o w'] eqn:E; simpl;
      destruct o as [?error|?data]; simpl
  end.

Ltac unfold_engine :=
  unfold backportOnce, group, tryCatch, tryFinally, bind, ret, throw, info,
    warning, logError, emit, liftResult, exec, request; simpl.

(** ** Definitions for the further properties *)

(** The message of the error [getBaseBranchFromLabel] throws. *)
Definition missingBaseMessage (labelRegExp : RegExp.t) (label : string)
  : string :=
  "RegExp " +:+ dquote +:+ RegExp.toString labelRegExp +:+ dquote
  +:+ " matched " +:+ dquote +:+ label +:+ dquote +:+ " but missed a "
  +:+ dquote +:+ "base" +:+ dquote +:+ " named capturing group.".

(** A labeled event of pull request #42, which carries the sample labels. *)
Definition labeledEvent (label : string) : Payload.t :=
  {| Payload.label := Some {| Label.name := label |};
     Payload.pull_request :=
       samplePullRequest sampleLabels (Some true) (Some "abc123");
     Payload.repository := Payload.repository sampleEvent |}.

(** The brackets [EvStartGroup] and [EvEndGroup] of a log are well
    formed: never nested, and all closed at the end ([opened] tells
    whether a group is open before the first event). *)
Fixpoint balanced (opened : bool) (events : list Event) : bool :=
  match events with
  | [] => negb opened
  | EvStartGroup _ :: rest => if opened then false else balanced true rest
  | EvEndGroup :: rest => if opened then balanced false rest else false
  | _ :: rest => balanced opened rest
  end.

(** A [git clone], recognised by its first argument. *)
Definition isClone (event : Event) : bool :=
  match event with
  | EvExec _ ("clone" :: _) _ _ => true
  | _ => false
  end.

Definition isCommand (event : Event) : bool :=
  match event with
  | EvExec _ _ _ _ => true
  | _ => false
  end.

Definition isCreatePull (event : Event) : bool :=
  match event with
  | EvRequest (CreatePull _ _ _ _ _ _) _ => true
  | _ => false
  end.

(** A command of the per-target workflow: git, run in the directory
    [dir], and a switch, a cherry-pick or a push.  Other events pass. *)
Definition targetCommand (dir : string) (event : Event) : Prop :=
  match event with
  | EvExec commandLine args cwd _ =>
      commandLine = "git" ∧ cwd = Some dir
      ∧ ∃ verb rest, args = verb :: rest
                     ∧ verb ∈ ["switch"; "cherry-pick"; "push"]
  | _ => True
  end.

(** The three commands [backport] runs before the loop, outside any
    directory. *)
Definition setupCommands (cloneUrl : string) : list (list string) :=
  [ ["clone"; cloneUrl];
    ["config"; "--global"; "user.email";
     "github-actions[bot]@users.noreply.github.com"];
    ["config"; "--global"; "user.name"; "github-actions[bot]"] ].

Definition setupEvent (args : list string) : Event :=
  EvExec "git" args None None.

(** What a run logs between the accepted repository query and the
    clone. *)
Definition announcement (payload : Payload.t) (data : Data.t) : list Event :=
  EvRequest (GetRepo (owner payload) (repo payload)) (inr data)
  :: (if Data.allow_merge_commit data || Data.allow_rebase_merge data
      then [EvWarning squashWarning] else [])
  ++ [EvInfo ("Backporting "
              +:+ default ""
                    (PullRequest.merge_commit_sha
                       (Payload.pull_request payload))
              +:+ " from #" +:+ pretty (prNumber payload) +:+ ".")].

(** A recovery request is addressed to the source pull request of
    [payload], and failure labels are those of one of [baseBranches].
    Other events pass. *)
Definition addressed (payload : Payload.t) (baseBranches : list string)
    (event : Event) : Prop :=
  match event with
  | EvRequest (CreateComment _ issue_number o r) _ =>
      issue_number = prNumber payload ∧ o = owner payload ∧ r = repo payload
  | EvRequest (AddLabels issue_number labels o r) _ =>
      issue_number = prNumber payload ∧ o = owner payload ∧ r = repo payload
      ∧ ∃ base, base ∈ baseBranches
                ∧ labels = ["backports"; "release-blocker";
                            "failed-backport-to-" +:+ base]
  | _ => True
  end.

(** Events that a run logs before the loop only: the repository query,
    the warning, and commands run outside any directory. *)
Definition preLoopOnly (event : Event) : bool :=
  match event with
  | EvRequest (GetRepo _ _) _ => true
  | EvWarning _ => true
  | EvExec _ _ None _ => true
  | _ => false
  end.

Definition isGroupEvent (event : Event) : bool :=
  match event with
  | EvStartGroup _ => true
  | EvEndGroup => true
  | _ => false
  end.

(** Where the commands of a run are executed: outside any directory, the
    clone and the two configurations; in the directory [dir], the commands
    of the per-target workflow.  Other events pass. *)
Definition runCommand (dir : string) (event : Event) : Prop :=
  match event with
  | EvExec commandLine args None _ =>
      commandLine = "git" ∧ ∃ cloneUrl, args ∈ setupCommands cloneUrl
  | _ => targetCommand dir event
  end.

(** The base branches an event is routed to, none when the router
    throws. *)
Definition routed (labelRegExp : RegExp.t) (payload : Payload.t)
  : list string :=
  match getBaseBranches labelRegExp payload with
  | inr baseBranches => baseBranches
  | inl _ => []
  end.

(** [piece] occurs somewhere in [s]; [s] begins with [piece]. *)
Definition contains (piece s : string) : Prop := ∃ k, occurs_at piece s k.

Definition beginsWith (piece s : string) : Prop := ∃ rest, s = piece +:+ rest.

(** Repository settings that allow merge commits. *)
Definition mergeCommitsAllowed : Data.t :=
  {| Data.allow_merge_commit := true;
     Data.allow_rebase_merge := false;
     Data.number := 0 |}.

(** One turn of the loop, for the target [5.4] of the sample event. *)
Definition sampleTurn (script : list Answer)
  : Result (gmap string Z) * State :=
  backportBase sampleBody sampleHead sampleTitle afterBase sampleEvent
    7 "https://github.com" "release" "TOKEN" "abc123" ∅ "5.4"
    (start script).

(** The pull request for [5.4] is created as #101, then the reviewers
    request is refused; the recovery goes through. *)
Definition createdThenRefused : list Answer :=
  [ok; ok; ok; ok; created 101; Fails "reviewers refused"; ok; ok].

(** Both targets of the sample event go through, as #100 and #101. *)
Definition bothPublished : list Answer :=
  preludeAnswers
  ++ [ok; ok; ok; ok; created 100; ok; ok;
      ok; ok; ok; ok; created 101; ok; ok].

(** Labels of which the second and the third are matched by [misnamed]. *)
Definition misroutedLabels : list string :=
  ["team/x"; "backport 5.3"; "backport 5.4"].

(** A [labeled] event for a pull request that carries no label. *)
Definition unlabelledPullRequestEvent (label : string) : Payload.t :=
  {| Payload.label := Some {| Label.name := label |};
     Payload.pull_request := samplePullRequest [] (Some true) None;
     Payload.repository := Payload.repository sampleEvent |}.

(** A request of the recovery, whatever its answer. *)
Definition recoveryEvent (event : Event) : bool :=
  match event with
  | EvRequest req _ => recoveryRequest req
  | _ => false
  end.

(** A labelling request for the pull request [number], whatever its
    answer. *)
Definition labelsPullRequest (number : Z) (event : Event) : bool :=
  match event with
  | EvRequest (SetLabels issue_number _ _ _) _ =>
      bool_decide (issue_number = number)
  | _ => false
  end.

(** Pull request #42 with the one label that routes it to the branch
    [__proto__]. *)
Definition protoEvent : Payload.t :=
  closedEvent ["backport base:__proto__"] (Some true) (Some "abc123").

(** The one target goes through, as pull request #100. *)
Definition onePublished : list Answer :=
  preludeAnswers ++ [ok; ok; ok; ok; created 100; ok; ok].

(** The pull request for [5.3] is created as #100 and its reviewers
    request is refused, the recovery goes through; [5.4] goes through as
    #101. *)
Definition unreviewedThenPublished : list Answer :=
  preludeAnswers
  ++ [ok; ok; ok; ok; created 100; Fails "reviewers refused"; ok; ok;
      ok; ok; ok; ok; created 101; ok; ok].
(** ** Facts about the string operations *)

Section StringFacts.

Implicit Types s t search pre post : string.

#[local] Arguments String.append !_ _ : simpl nomatch.

Lemma app_empty_r s : s +:+ "" = s.
Proof. induction s as [|c s IH]; simpl; [done|by rewrite IH]. Qed.

Lemma app_assoc' s t u : (s +:+ t) +:+ u = s +:+ t +:+ u.
Proof. induction s as [|c s IH]; simpl; [done|by rewrite IH]. Qed.

Lemma length_app' s t :
  String.length (s +:+ t) = (String.length s + String.length t)%nat.
Proof. induction s as [|c s IH]; simpl; [done|by rewrite IH]. Qed.

Lemma app_inv_head' s t u : s +:+ t = s +:+ u → t = u.
Proof. induction s as [|c s IH]; simpl; [done|]. intros [= ?]. auto. Qed.

Lemma drop_0 s : JS.drop 0 s = s.
Proof. by destruct s. Qed.

Lemma drop_app_length pre s : JS.drop (String.length pre) (pre +:+ s) = s.
Proof. induction pre as [|c pre IH]; simpl; [apply drop_0|done]. Qed.

Lemma take_app_length pre s : JS.take (String.length pre) (pre +:+ s) = pre.
Proof.
  induction pre as [|c pre IH]; simpl; [by destruct s|by rewrite IH].
Qed.

Lemma take_length_all s : JS.take (String.length s) s = s.
Proof. induction s as [|c s IH]; simpl; [done|by rewrite IH]. Qed.

Lemma take_drop s n : JS.take n s +:+ JS.drop n s = s.
Proof.
  revert s. induction n as [|n IH]; intros [|c s]; simpl; try done.
  by rewrite IH.
Qed.

Lemma length_take_le s n :
  (n ≤ String.length s)%nat → String.length (JS.take n s) = n.
Proof.
  revert s. induction n as [|n IH]; intros [|c s]; simpl; try done; try lia.
  intros ?. rewrite IH; lia.
Qed.

Lemma drop_drop s n m : JS.drop n (JS.drop m s) = JS.drop (m + n) s.
Proof.
  revert s. induction m as [|m IH]; intros s; simpl.
  - done.
  - destruct s as [|c s]; [by destruct n|]. apply IH.
Qed.

Lemma prefix_app search s :
  String.prefix search s = true ↔ ∃ post, s = search +:+ post.
Proof.
  revert s. induction search as [|c search IH]; intros s.
  - split; [by exists s|by destruct s].
  - destruct s as [|d s]; simpl; [split; [done|by intros [? ?]]|].
    destruct (Ascii.ascii_dec c d) as [->|Hne].
    + rewrite IH. split; intros [post Hp]; exists post; congruence.
    + split; [done|]. intros [post [= ? ?]]. done.
Qed.

Lemma find_empty search :
  JS.find search "" = if String.prefix search "" then Some 0%nat else None.
Proof. done. Qed.

Lemma find_cons search c s :
  JS.find search (String c s) =
    if String.prefix search (String c s) then Some 0%nat
    else S <$> JS.find search s.
Proof. done. Qed.

(** What a successful search says: an occurrence at [k], none before. *)
Lemma find_Some search s k :
  JS.find search s = Some k →
  (∃ post, s = JS.take k s +:+ search +:+ post
           ∧ JS.drop k s = search +:+ post
           ∧ (k ≤ String.length s)%nat)
  ∧ ∀ j, (j < k)%nat → ¬ occurs_at search s j.
Proof.
  revert k. induction s as [|c s IH]; intros k; rewrite ?find_empty, ?find_cons.
  - destruct (String.prefix search "") eqn:Hp; [|done].
    intros [= <-]. apply prefix_app in Hp as [post Hp].
    split; [|intros; lia]. exists post. by rewrite Hp at 1 2.
  - destruct (String.prefix search (String c s)) eqn:Hp.
    + intros [= <-]. apply prefix_app in Hp as [post Hp].
      split; [|intros; lia]. exists post. simpl. split_and!; [done|done|lia].
    + destruct (JS.find search s) as [k'|] eqn:Hf; [|done].
      intros [= <-]. destruct (IH k' eq_refl) as [(post & H1 & H2 & H3) Hmin].
      split.
      * exists post. simpl. split_and!; [by rewrite <-H1|done|lia].
      * intros [|j] Hj (pre & post' & Heq & Hlen).
        -- destruct pre; [|done]. simpl in Heq.
           assert (String.prefix search (String c s) = true) as Hp'
             by (apply prefix_app; eauto).
           congruence.
        -- destruct pre as [|d pre]; [done|]. simpl in Heq, Hlen.
           injection Heq as -> ->. apply (Hmin j); [lia|].
           exists pre, post'. split; [done|lia].
Qed.

(** What a failed search says: no occurrence at all. *)
Lemma find_None search s :
  JS.find search s = None → ∀ pre post, s ≠ pre +:+ search +:+ post.
Proof.
  induction s as [|c s IH]; rewrite ?find_empty, ?find_cons.
  - destruct (String.prefix search "") eqn:Hp; [done|]. intros _ pre post Heq.
    destruct pre; [|done]. simpl in Heq.
    assert (String.prefix search "" = true) by (apply prefix_app; eauto).
    congruence.
  - destruct (String.prefix search (String c s)) eqn:Hp; [done|].
    destruct (JS.find search s) eqn:Hf; [done|]. intros _ pre post Heq.
    destruct pre as [|d pre]; simpl in Heq.
    + assert (String.prefix search (String c s) = true)
        by (apply prefix_app; eauto).
      congruence.
    + injection Heq as -> ->. by eapply IH.
Qed.

(** The first occurrence is the one [find] returns. *)
Lemma find_first search pre post :
  (∀ j, (j < String.length pre)%nat →
        ¬ occurs_at search (pre +:+ search +:+ post) j) →
  JS.find search (pre +:+ search +:+ post) = Some (String.length pre).
Proof.
  intros Hfirst.
  destruct (JS.find search (pre +:+ search +:+ post)) as [k|] eqn:Hf.
  - apply find_Some in Hf as [(post' & H1 & _ & _) Hmin].
    destruct (decide (k = String.length pre)) as [->|Hne]; [done|].
    destruct (decide (k < String.length pre)%nat) as [Hlt|Hge].
    + destruct (Hfirst k Hlt).
      exists (JS.take k (pre +:+ search +:+ post)), post'. split; [done|].
      apply length_take_le. rewrite length_app'. lia.
    + destruct (Hmin (String.length pre)); [lia|]. by exists pre, post.
  - by eapply find_None in Hf.
Qed.

Lemma indexOf_nat s search (n : nat) :
  (n ≤ String.length s)%nat →
  JS.indexOf s search (Z.of_nat n) =
    match JS.find search (JS.drop n s) with
    | Some k => Z.of_nat (n + k)
    | None => -1
    end.
Proof.
  intros Hn. unfold JS.indexOf.
  replace (Z.to_nat (Z.min (Z.max (Z.of_nat n) 0) (Z.of_nat (String.length s))))
    with n by lia.
  done.
Qed.

Lemma slice_prefix s (n : nat) :
  (n ≤ String.length s)%nat → JS.slice s 0 (Some (Z.of_nat n)) = JS.take n s.
Proof.
  intros Hn. unfold JS.slice, JS.relative. simpl.
  destruct (Z.of_nat n <? 0) eqn:Hlt; [lia|].
  replace (Z.to_nat (Z.max (Z.min (Z.of_nat n) (Z.of_nat (String.length s))
                            - Z.min 0 (Z.of_nat (String.length s))) 0))
    with n by lia.
  replace (Z.to_nat (Z.min 0 (Z.of_nat (String.length s)))) with 0%nat by lia.
  by rewrite drop_0.
Qed.

Lemma slice_suffix s (n : nat) :
  (n ≤ String.length s)%nat → JS.slice s (Z.of_nat n) None = JS.drop n s.
Proof.
  intros Hn. unfold JS.slice, JS.relative.
  destruct (Z.of_nat n <? 0) eqn:Hlt; [lia|].
  replace (Z.to_nat (Z.min (Z.of_nat n) (Z.of_nat (String.length s))))
    with n by lia.
  rewrite <-(take_length_all (JS.drop n s)) at 2. f_equal.
  assert (String.length s
          = (String.length (JS.take n s) + String.length (JS.drop n s))%nat)
    as Hlen by (by rewrite <-length_app', take_drop).
  rewrite length_take_le in Hlen by done. lia.
Qed.

End StringFacts.

(** ** The strip operation, case by case *)

Section StripFacts.

Implicit Types body pre mid post : string.

Lemma find_Some_length search s k :
  JS.find search s = Some k →
  (k + String.length search ≤ String.length s)%nat.
Proof.
  intros Hf. apply find_Some in Hf as [(post & H1 & _ & Hk) _].
  apply (f_equal String.length) in H1.
  rewrite !length_app', length_take_le in H1 by done. lia.
Qed.

(** The three ways through [stripTestPlanFromPRBody]. *)
Lemma strip_cases body :
  (JS.find startDelimiter body = None
   ∧ stripTestPlanFromPRBody body = body)
  ∨ (∃ k, JS.find startDelimiter body = Some k
          ∧ JS.find endDelimiter (JS.drop (k + 4) body) = None
          ∧ stripTestPlanFromPRBody body = body)
  ∨ (∃ k j, JS.find startDelimiter body = Some k
            ∧ JS.find endDelimiter (JS.drop (k + 4) body) = Some j
            ∧ stripTestPlanFromPRBody body
              = JS.take k body +:+ JS.drop (k + 4 + j + 3) body).
Proof.
  unfold stripTestPlanFromPRBody.
  change 0 with (Z.of_nat 0). rewrite indexOf_nat by lia. rewrite drop_0.
  destruct (JS.find startDelimiter body) as [k|] eqn:Hs; [|by left].
  right. pose proof (find_Some_length _ _ _ Hs) as Hk.
  change (String.length startDelimiter) with 4%nat in *.
  change (String.length endDelimiter) with 3%nat in *.
  destruct (Z.eqb_spec (Z.of_nat (0 + k)) (-1)) as [?|_]; [lia|].
  rewrite <-Nat2Z.inj_add. rewrite indexOf_nat by lia.
  replace (0 + k + 4)%nat with (k + 4)%nat by lia.
  destruct (JS.find endDelimiter (JS.drop (k + 4) body)) as [j|] eqn:He.
  - right. exists k, j. split_and!; [done..|].
    pose proof (find_Some_length _ _ _ He) as Hj.
    change (String.length endDelimiter) with 3%nat in Hj.
    assert (String.length body
            = (String.length (JS.take (k + 4) body)
               + String.length (JS.drop (k + 4) body))%nat) as Hlen
      by (by rewrite <-length_app', take_drop).
    rewrite length_take_le in Hlen by lia.
    destruct (Z.eqb_spec (Z.of_nat (k + 4 + j)) (-1)) as [?|_]; [lia|].
    rewrite <-Nat2Z.inj_add.
    rewrite slice_prefix, slice_suffix by lia. done.
  - left. exists k. done.
Qed.

Lemma strip_no_pair body :
  no_delimiter_pair body → stripTestPlanFromPRBody body = body.
Proof.
  intros Hno.
  destruct (strip_cases body)
    as [[_ ?]|[(k & _ & _ & ?)|(k & j & Hs & He & _)]]; [done..|].
  destruct (find_Some _ _ _ Hs) as [(post & H1 & H2 & _) _].
  destruct (find_Some _ _ _ He) as [(post' & H3 & _ & _) _].
  destruct (Hno (JS.take k body) (JS.take j (JS.drop (k + 4) body)) post').
  rewrite <-H3. rewrite H1 at 1. do 2 f_equal.
  rewrite <-drop_drop, H2. done.
Qed.

Lemma strip_first_pair pre mid post :
  (∀ j, (j < String.length pre)%nat →
     ¬ occurs_at startDelimiter
         (pre +:+ startDelimiter +:+ mid +:+ endDelimiter +:+ post) j) →
  (∀ j, (j < String.length mid)%nat →
     ¬ occurs_at endDelimiter (mid +:+ endDelimiter +:+ post) j) →
  stripTestPlanFromPRBody
    (pre +:+ startDelimiter +:+ mid +:+ endDelimiter +:+ post)
  = pre +:+ post.
Proof.
  intros Hs He. apply find_first in Hs, He.
  set (body := pre +:+ startDelimiter +:+ mid +:+ endDelimiter +:+ post) in *.
  assert (JS.drop (String.length pre + 4) body
          = mid +:+ endDelimiter +:+ post) as Hdrop.
  { rewrite <-drop_drop. unfold body. by rewrite drop_app_length. }
  destruct (strip_cases body)
    as [[? _]|[(k & Hk & Hn & _)|(k & j & Hk & Hj & ->)]].
  - congruence.
  - assert (k = String.length pre) as -> by congruence. congruence.
  - assert (k = String.length pre) as -> by congruence.
    rewrite Hdrop, He in Hj. injection Hj as <-. f_equal.
    + apply take_app_length.
    + replace (String.length pre + 4 + String.length mid + 3)%nat
        with ((String.length pre + 4) + (String.length mid + 3))%nat by lia.
      rewrite <-drop_drop, Hdrop, <-drop_drop, drop_app_length. done.
Qed.

End StripFacts.

(** ** The strip operation: the claims *)

(** C3 (amended) — The strip operation removes everything from the first
    occurrence of the start delimiter through the first end delimiter that
    follows it, both included, and nothing else: the body
    [before<!--plan-->middle<!--/plan-->after] becomes
    [beforemiddle<!--/plan-->after].  A body without a start delimiter, and
    a body whose first start delimiter has no end delimiter after it, are
    returned unchanged. *)
Theorem strip_removes_the_first_comment :
  (∀ pre mid post,
     (∀ j, (j < String.length pre)%nat →
        ¬ occurs_at startDelimiter
            (pre +:+ startDelimiter +:+ mid +:+ endDelimiter +:+ post) j) →
     (∀ j, (j < String.length mid)%nat →
        ¬ occurs_at endDelimiter (mid +:+ endDelimiter +:+ post) j) →
     stripTestPlanFromPRBody
       (pre +:+ startDelimiter +:+ mid +:+ endDelimiter +:+ post)
     = pre +:+ post)
  ∧ (∀ body,
       (∀ k, ¬ occurs_at startDelimiter body k) →
       stripTestPlanFromPRBody body = body)
  ∧ (∀ pre rest,
       (∀ j, (j < String.length pre)%nat →
          ¬ occurs_at startDelimiter (pre +:+ startDelimiter +:+ rest) j) →
       (∀ k, ¬ occurs_at endDelimiter rest k) →
       stripTestPlanFromPRBody (pre +:+ startDelimiter +:+ rest)
       = pre +:+ startDelimiter +:+ rest)
  ∧ stripTestPlanFromPRBody "before<!--plan-->middle<!--/plan-->after"
    = "beforemiddle<!--/plan-->after".
Proof.
  split_and!.
  - apply strip_first_pair.
  - intros body Hnone.
    destruct (strip_cases body)
      as [[_ ?]|[(k & _ & _ & ?)|(k & j & Hs & _ & _)]]; [done..|].
    destruct (find_Some _ _ _ Hs) as [(post & H1 & _ & Hk) _].
    destruct (Hnone k). exists (JS.take k body), post.
    split; [done|by apply length_take_le].
  - intros pre rest Hfirst Hnone.
    destruct (strip_cases (pre +:+ startDelimiter +:+ rest))
      as [[_ ?]|[(k & _ & _ & ?)|(k & j & Hs & He & _)]]; [done..|].
    rewrite (find_first _ _ _ Hfirst) in Hs. injection Hs as <-.
    rewrite <-drop_drop, drop_app_length in He.
    change (JS.drop 4 (startDelimiter +:+ rest)) with rest in He.
    destruct (find_Some _ _ _ He) as [(post & H1 & _ & Hj) _].
    destruct (Hnone j). exists (JS.take j rest), post.
    split; [done|by apply length_take_le].
  - reflexivity.
Qed.

(** C3, as stated, fails on its own example: only the first comment,
    [<!--plan-->], is removed, and [middle<!--/plan-->] stays. *)
Lemma strip_example_keeps_the_middle :
  stripTestPlanFromPRBody "before<!--plan-->middle<!--/plan-->after"
  = "beforemiddle<!--/plan-->after"
  ∧ stripTestPlanFromPRBody "before<!--plan-->middle<!--/plan-->after"
    ≠ "beforeafter".
Proof. split; [reflexivity|discriminate]. Qed.

(** C9 — Stripping twice is stripping once, provided the body stripped
    once holds no start delimiter followed by an end delimiter. *)
Theorem strip_twice_is_strip_once body :
  no_delimiter_pair (stripTestPlanFromPRBody body) →
  stripTestPlanFromPRBody (stripTestPlanFromPRBody body)
  = stripTestPlanFromPRBody body.
Proof. apply strip_no_pair. Qed.

(** The proviso of C9 at a concrete body, and the conclusion there. *)
Lemma strip_twice_is_strip_once_witness :
  no_delimiter_pair (stripTestPlanFromPRBody "Fix.<!-- test plan -->Done.")
  ∧ stripTestPlanFromPRBody
      (stripTestPlanFromPRBody "Fix.<!-- test plan -->Done.")
    = "Fix.Done.".
Proof.
  assert (no_delimiter_pair
            (stripTestPlanFromPRBody "Fix.<!-- test plan -->Done.")) as Hno.
  { intros pre mid post Heq.
    by eapply (find_None startDelimiter "Fix.Done."). }
  split; [exact Hno|].
  exact (strip_twice_is_strip_once "Fix.<!-- test plan -->Done." Hno).
Defined.

(** Without the proviso the second pass may still remove text. *)
Example strip_twice_differs :
  stripTestPlanFromPRBody
    (stripTestPlanFromPRBody "before<!--plan-->middle<!--/plan-->after")
  = "beforemiddleafter".
Proof. reflexivity. Qed.

(** ** The label router *)

Section RouterFacts.

Variable labelRegExp : RegExp.t.

Lemma getBaseBranchFromLabel_lacksBase label :
  lacksBase labelRegExp label = true →
  ∃ error, getBaseBranchFromLabel label labelRegExp = inl error.
Proof.
  unfold lacksBase, getBaseBranchFromLabel.
  destruct (RegExp.exec labelRegExp label) as [[[groups|]]|]; try done.
  simpl. intros ->. eauto.
Qed.

Lemma getBaseBranchFromLabel_capture label :
  lacksBase labelRegExp label = false →
  ∃ value,
    getBaseBranchFromLabel label labelRegExp = inr value
    ∧ compact [value] = option_list (baseCapture labelRegExp label).
Proof.
  unfold lacksBase, getBaseBranchFromLabel, baseCapture.
  destruct (RegExp.exec labelRegExp label) as [[[groups|]]|];
    [|by exists None..].
  simpl. intros Hbase%negb_false_iff. rewrite Hbase. simpl.
  exists (groups !! "base"). split; [done|].
  unfold compact. rewrite Hbase. by destruct (groups !! "base").
Qed.

Lemma compact_cons value values :
  compact (value :: values) = compact [value] ++ compact values.
Proof. simpl. by destruct (truthy value). Qed.


(** The first label that lacks [base] makes the router throw. *)
Lemma Array_map_lacksBase (labels : list Label.t) label :
  label ∈ map Label.name labels →
  lacksBase labelRegExp label = true →
  ∃ error,
    Array_map (λ label, getBaseBranchFromLabel (Label.name label) labelRegExp)
      labels = inl error.
Proof.
  induction labels as [|label' labels IH]; simpl; intros Hin Hlacks.
  - by apply elem_of_nil in Hin.
  - destruct (getBaseBranchFromLabel (Label.name label') labelRegExp)
      as [error|value] eqn:Hfirst; [eauto|].
    apply elem_of_cons in Hin as [->|Hin].
    + destruct (getBaseBranchFromLabel_lacksBase _ Hlacks) as [error Herr].
      congruence.
    + destruct (IH Hin Hlacks) as [error ->]. eauto.
Qed.

Lemma getBaseBranches_lacksBase payload label :
  label ∈ testedLabels payload →
  lacksBase labelRegExp label = true →
  ∃ error, getBaseBranches labelRegExp payload = inl error.
Proof.
  unfold testedLabels, getBaseBranches.
  destruct (Payload.label payload) as [triggering|].
  - intros Hin Hlacks. apply elem_of_cons in Hin as [->|Hin].
    + destruct (getBaseBranchFromLabel_lacksBase _ Hlacks) as [error ->].
      eauto.
    + by apply elem_of_nil in Hin.
  - intros Hin Hlacks.
    destruct (Array_map_lacksBase _ _ Hin Hlacks) as [error ->]. eauto.
Qed.


End RouterFacts.

(** ** Facts about the engine *)

Section EngineFacts.

Context `{Runtime}.

Lemma bind_run {A B : Type} (m : M A) (f : A → M B) st :
  bind m f st
  = match m st with
    | (inl error, st') => (inl error, st')
    | (inr a, st') => f a st'
    end.
Proof. done. Qed.

Lemma exec_run commandLine args cwd st :
  exec commandLine args cwd st
  = (match (run_exec commandLine args cwd (world st)).1 with
     | Some error => inl error
     | None => inr tt
     end,
     {| world := (run_exec commandLine args cwd (world st)).2;
        log := log st
               ++ [EvExec commandLine args cwd
                     (run_exec commandLine args cwd (world st)).1] |}).
Proof. unfold exec. by destruct (run_exec _ _ _ _). Qed.

Lemma request_run github req st :
  request github req st
  = ((run_request github req (world st)).1,
     {| world := (run_request github req (world st)).2;
        log := log st ++ [EvRequest req (run_request github req (world st)).1] |}).
Proof. unfold request. by destruct (run_request _ _ _). Qed.

Lemma backportOnce_run mergeCommitSha a base body github head labels mb o r
    tr title st :
  (0 < length labels)%nat →
  match
    backportOnce a base body mergeCommitSha github head labels mb o r tr
      title st
  with
  | (inr n, st') =>
      ∃ d1 d2 d3,
        n = Data.number d1
        ∧ log st'
          = log st
            ++ [ EvExec "git" ["switch"; base] (Some r) None;
                 EvExec "git" ["switch"; "--create"; head] (Some r) None;
                 EvExec "git" ["cherry-pick"; "-x"; mergeCommitSha] (Some r)
                   None;
                 EvExec "git" ["push"; "--set-upstream"; "origin"; head]
                   (Some r) None;
                 EvRequest (CreatePull base body head o r title) (inr d1);
                 EvRequest
                   (RequestReviewers o (Data.number d1) r (reviewersOf a mb)
                      (teamReviewersOf tr))
                   (inr d2);
                 EvRequest (SetLabels (Data.number d1) labels o r) (inr d3);
                 EvInfo ("PR #" +:+ pretty (Data.number d1)
                         +:+ " has been created.") ]
  | (inl error, st') =>
      ∃ attempt, log st' = log st ++ attempt ∧ failedAttempt attempt error
  end.
Proof.
  intros Hlabels. unfold_engine.
  rewrite bool_decide_eq_true_2 by done.
  repeat next_call; rewrite <-?app_assoc; simpl;
    try (eexists; split; [reflexivity|]; split;
         [repeat constructor
         |apply Exists_exists;
          repeat first [by apply Exists_cons_hd|apply Exists_cons_tl]]).
  eexists _, _, _. split; reflexivity.
Qed.


Section Turn.

Variable getBody : string → string → string → Z → string.
Variable getHead : string → Z → string.
Variable getTitle : string → Z → string → string.
Variable labelRegExp : RegExp.t.
Variable payload : Payload.t.
Variable runId : Z.
Variable serverUrl : string.
Variable teamReviews : string.

#[local] Abbreviation labelsFor := (labelsFor labelRegExp payload).
#[local] Abbreviation backportBase :=
  (backportBase getBody getHead getTitle labelRegExp payload runId serverUrl
     teamReviews).
#[local] Abbreviation backportEach :=
  (backportEach getBody getHead getTitle labelRegExp payload runId serverUrl
     teamReviews).
#[local] Abbreviation outcomeEvents :=
  (outcomeEvents getBody getHead getTitle labelRegExp payload runId serverUrl
     teamReviews).
#[local] Abbreviation abortedEvents :=
  (abortedEvents getHead payload runId serverUrl).
#[local] Abbreviation allEvents :=
  (allEvents getBody getHead getTitle labelRegExp payload runId serverUrl
     teamReviews).

Lemma labelsFor_nonempty base : (0 < length (labelsFor base))%nat.
Proof. unfold labelsFor. rewrite length_app. simpl. lia. Qed.

(** One turn of the loop: the target is recorded, or recovered from, or the
    recovery itself throws. *)
Lemma backportBase_run github mergeCommitSha created base st :
  match backportBase github mergeCommitSha created base st with
  | (inr m, st') =>
      ∃ o, wellFormed o
           ∧ m = record created base o
           ∧ log st' = log st ++ outcomeEvents mergeCommitSha base o
  | (inl error, st') =>
      ∃ attempt attemptError commented,
        failedAttempt attempt attemptError
        ∧ log st'
          = log st
            ++ abortedEvents mergeCommitSha base attempt attemptError
                 commented error
  end.
Proof.
  unfold backportBase, group, tryFinally, tryCatch, bind, ret,
    logError, emit, ensureError.
  simpl.
  set (st0 := {| world := world st;
                 log := log st ++ [EvStartGroup _] |}).
  match goal with
  | |- context [backportOnce ?a ?b ?c ?d ?e ?f ?g ?h ?i ?j ?k ?l st0] =>
      pose proof (backportOnce_run d a b c e f g h i j k l st0
                    (labelsFor_nonempty base)) as Hrun;
      destruct (backportOnce a b c d e f g h i j k l st0) as [[error|n] st1]
  end; simpl.
  - destruct Hrun as (attempt & Hlog & Hfailed).
    rewrite <-?app_assoc in Hlog. simpl in Hlog.
    unfold request.
    repeat next_call; rewrite ?Hlog, <-?app_assoc; simpl.
    + exists attempt, error, None. done.
    + exists attempt, error, (Some data). done.
    + exists (Recovered attempt error data data0). done.
  - destruct Hrun as (d1 & d2 & d3 & -> & Hlog).
    exists (Backported d1 d2 d3). split_and!; [done..|].
    rewrite Hlog. subst st0. simpl. rewrite <-?app_assoc. done.
Qed.

(** The loop: every target has its outcome, in order, unless a recovery
    threw, which ends the loop inside that target's group. *)
Lemma backportEach_run github mergeCommitSha baseBranches created st :
  match backportEach github mergeCommitSha baseBranches created st with
  | (inr m, st') =>
      ∃ os, length os = length baseBranches
            ∧ Forall wellFormed os
            ∧ m = recordAll created baseBranches os
            ∧ log st' = log st ++ allEvents mergeCommitSha baseBranches os
  | (inl error, st') =>
      ∃ processed base rest os attempt attemptError commented,
        baseBranches = processed ++ base :: rest
        ∧ length os = length processed
        ∧ Forall wellFormed os
        ∧ failedAttempt attempt attemptError
        ∧ log st'
          = log st
            ++ allEvents mergeCommitSha processed os
            ++ abortedEvents mergeCommitSha base attempt attemptError
                 commented error
  end.
Proof.
  revert created st.
  induction baseBranches as [|base rest IH]; intros created st; simpl.
  - exists []. split_and!; [done..|]. by rewrite app_nil_r.
  - rewrite bind_run.
    pose proof (backportBase_run github mergeCommitSha created base st) as Hturn.
    destruct (backportBase github mergeCommitSha created base st)
      as [[error|m] st1].
    + destruct Hturn as (attempt & attemptError & commented & Hfailed & Hlog).
      exists [], base, rest, [], attempt, attemptError, commented.
      split_and!; done.
    + destruct Hturn as (o & Hwf & -> & Hlog).
      specialize (IH (record created base o) st1).
      destruct (backportEach github mergeCommitSha rest
                  (record created base o) st1) as [[error|m] st2].
      * destruct IH as (processed & base' & rest' & os & attempt
                        & attemptError & commented & -> & Hlen & Hos
                        & Hfailed & Hlog').
        exists (base :: processed), base', rest', (o :: os), attempt,
          attemptError, commented.
        split_and!; [done|simpl; lia|by constructor|done|].
        rewrite Hlog', Hlog. simpl. by rewrite <-?app_assoc.
      * destruct IH as (os & Hlen & Hos & -> & Hlog').
        exists (o :: os).
        split_and!; [simpl; lia|by constructor|done|].
        rewrite Hlog', Hlog. simpl. by rewrite <-?app_assoc.
Qed.

Lemma preludeEvent_not_recovery event :
  preludeEvent event = true → recoveryFailure event = false.
Proof. by destruct event as [| | | | | |[] []]. Qed.

Lemma attemptEvent_not_recovery event :
  attemptEvent event = true → recoveryFailure event = false.
Proof. by destruct event as [| | | | | |[] []]. Qed.

Lemma failedAttempt_not_recovery attempt error :
  failedAttempt attempt error →
  Forall (λ event, recoveryFailure event = false) attempt.
Proof.
  intros [Hall _]. eapply Forall_impl; [exact Hall|].
  apply attemptEvent_not_recovery.
Qed.

Lemma outcomeEvents_not_recovery mergeCommitSha base o :
  wellFormed o →
  Forall (λ event, recoveryFailure event = false)
    (outcomeEvents mergeCommitSha base o).
Proof.
  destruct o as [d1 d2 d3|attempt error d4 d5]; simpl.
  - intros _. by repeat constructor.
  - intros Hfailed%failedAttempt_not_recovery. constructor; [done|].
    apply Forall_app. split; [done|by repeat constructor].
Qed.

Lemma allEvents_not_recovery mergeCommitSha baseBranches os :
  Forall wellFormed os →
  Forall (λ event, recoveryFailure event = false)
    (allEvents mergeCommitSha baseBranches os).
Proof.
  intros Hos. revert baseBranches.
  induction Hos as [|o os Ho Hos IH]; intros [|base rest]; simpl;
    try by constructor.
  apply Forall_app. split; [by apply outcomeEvents_not_recovery|apply IH].
Qed.

(** A target whose recovery threw ends with the refused request and the
    closing of its group; nothing before that is a refused recovery. *)
Lemma abortedEvents_split mergeCommitSha base attempt attemptError commented
    error :
  failedAttempt attempt attemptError →
  ∃ before req,
    recoveryRequest req = true
    ∧ abortedEvents mergeCommitSha base attempt attemptError commented error
      = before ++ [EvRequest req (inl error); EvEndGroup]
    ∧ Forall (λ event, recoveryFailure event = false) before.
Proof.
  intros Hfailed%failedAttempt_not_recovery.
  unfold abortedEvents. destruct commented as [d4|].
  - exists (EvStartGroup (groupName getHead payload base)
            :: attempt
            ++ [EvError attemptError;
                EvRequest
                  (failureComment getHead payload runId serverUrl
                     mergeCommitSha base attemptError) (inr d4)]),
      (failureLabelling payload base).
    split_and!; [done| |].
    + simpl. f_equal. by rewrite <-?app_assoc.
    + constructor; [done|]. apply Forall_app.
      split; [done|by repeat constructor].
  - exists (EvStartGroup (groupName getHead payload base)
            :: attempt ++ [EvError attemptError]),
      (failureComment getHead payload runId serverUrl mergeCommitSha base
         attemptError).
    split_and!; [done| |].
    + simpl. f_equal. by rewrite <-?app_assoc.
    + constructor; [done|]. apply Forall_app.
      split; [done|by repeat constructor].
Qed.

Lemma recordAll_is_Some created baseBranches os base :
  is_Some (created !! base) →
  is_Some (recordAll created baseBranches os !! base).
Proof.
  revert created os.
  induction baseBranches as [|base' rest IH]; intros created [|o os] Hsome;
    simpl; try done.
  apply IH. destruct o as [d1 d2 d3|]; simpl; [|done].
  unfold setProperty. destruct (decide (base' = "__proto__")); [done|].
  destruct (decide (base' = base)) as [->|Hne].
  - rewrite lookup_insert_eq. eauto.
  - by rewrite lookup_insert_ne.
Qed.

(** No assignment gives the result object a key [__proto__]. *)
Lemma recordAll_proto created baseBranches os :
  created !! "__proto__" = None →
  recordAll created baseBranches os !! "__proto__" = None.
Proof.
  revert created os.
  induction baseBranches as [|base rest IH]; intros created [|o os] Hnone;
    simpl; try done.
  apply IH. destruct o as [d1 d2 d3|]; simpl; [|done].
  unfold setProperty. destruct (decide (base = "__proto__")); [done|].
  by rewrite lookup_insert_ne.
Qed.

(** Where the keys of the result object come from, and what a missing key
    means, in terms of the loop's events. *)
Lemma recordAll_accounted mergeCommitSha baseBranches os created :
  length os = length baseBranches →
  Forall wellFormed os →
  (∀ base number,
     recordAll created baseBranches os !! base = Some number →
     created !! base = Some number
     ∨ (base ∈ baseBranches
        ∧ ∃ before d1 d2 d3 after,
            Data.number d1 = number
            ∧ allEvents mergeCommitSha baseBranches os
              = before
                ++ outcomeEvents mergeCommitSha base (Backported d1 d2 d3)
                ++ after))
  ∧ (∀ base,
       base ∈ baseBranches →
       base ≠ "__proto__" →
       recordAll created baseBranches os !! base = None →
       ∃ before attempt error d4 d5 after,
         failedAttempt attempt error
         ∧ allEvents mergeCommitSha baseBranches os
           = before
             ++ outcomeEvents mergeCommitSha base
                  (Recovered attempt error d4 d5)
             ++ after).
Proof.
  revert os created.
  induction baseBranches as [|base0 rest IH]; intros [|o os] created Hlen Hos;
    simpl in *; try lia.
  - split; [by left|]. intros base Hin. by apply elem_of_nil in Hin.
  - apply Forall_cons in Hos as [Ho Hos].
    destruct (IH os (record created base0 o)) as [IH1 IH2]; [lia|done|].
    split.
    + intros base number Hm.
      destruct (IH1 base number Hm)
        as [Hrec|(Hin & before & d1 & d2 & d3 & after & Hn & Hevs)].
      * destruct o as [d1 d2 d3|attempt error d4 d5]; simpl in Hrec;
          [|by left].
        unfold setProperty in Hrec.
        destruct (decide (base0 = "__proto__")); [by left|].
        destruct (decide (base0 = base)) as [->|Hne].
        -- rewrite lookup_insert_eq in Hrec. injection Hrec as Hn.
           right. split; [by left|].
           exists [], d1, d2, d3, (allEvents mergeCommitSha rest os).
           split; [done|]. simpl. by rewrite <-?app_assoc.
        -- rewrite lookup_insert_ne in Hrec by done. by left.
      * right. split; [by right|].
        exists (outcomeEvents mergeCommitSha base0 o ++ before), d1, d2, d3,
          after.
        split; [done|]. by rewrite Hevs, <-?app_assoc.
    + intros base [->|Hin]%elem_of_cons Hproto Hm.
      * destruct o as [d1 d2 d3|attempt error d4 d5].
        -- assert (is_Some (recordAll (record created base0 (Backported d1 d2 d3))
                              rest os !! base0)) as [? Hsome].
           { apply recordAll_is_Some. simpl. unfold setProperty.
             rewrite decide_False by done. rewrite lookup_insert_eq. eauto. }
           congruence.
        -- exists [], attempt, error, d4, d5,
             (allEvents mergeCommitSha rest os).
           split; [done|]. simpl. by rewrite <-?app_assoc.
      * destruct (IH2 base Hin Hproto Hm)
          as (before & attempt & error & d4 & d5 & after & Hfailed & Hevs).
        exists (outcomeEvents mergeCommitSha base0 o ++ before), attempt,
          error, d4, d5, after.
        split; [done|]. by rewrite Hevs, <-?app_assoc.
Qed.

(** C6 (amended) — In a run of the loop in which no recovery request is
    refused, a target whose attempt fails does not end the loop: the
    failure is caught, logged and answered by the failure comment and the
    failure labels, and every target of the list, those after a failed one
    included, has its outcome (published, or failed and recovered from); the
    outcomes stand in the log in the order of the target list, and the
    result object is the one they record. *)
Theorem failed_target_does_not_stop_the_loop github mergeCommitSha
    baseBranches created st r st' evs :
  backportEach github mergeCommitSha baseBranches created st = (r, st') →
  log st' = log st ++ evs →
  Forall (λ event, recoveryFailure event = false) evs →
  ∃ os, length os = length baseBranches
        ∧ Forall wellFormed os
        ∧ r = inr (recordAll created baseBranches os)
        ∧ evs = allEvents mergeCommitSha baseBranches os.
Proof.
  intros Hrun Hlog Hquiet.
  pose proof (backportEach_run github mergeCommitSha baseBranches created st)
    as Hloop.
  rewrite Hrun in Hloop. destruct r as [error|m].
  - destruct Hloop as (processed & base & rest & os & attempt & attemptError
                       & commented & -> & Hlen & Hos & Hfailed & Hlog').
    rewrite Hlog in Hlog'. apply app_inv_head in Hlog'. subst evs.
    destruct (abortedEvents_split mergeCommitSha base attempt attemptError
                commented error Hfailed) as (before & req & Hreq & Heq & _).
    rewrite Heq in Hquiet.
    apply Forall_app in Hquiet as [_ Hquiet].
    apply Forall_app in Hquiet as [_ Hquiet].
    apply Forall_cons in Hquiet as [Hquiet _]. simpl in Hquiet. congruence.
  - destruct Hloop as (os & Hlen & Hos & -> & Hlog').
    rewrite Hlog in Hlog'. apply app_inv_head in Hlog'. eauto.
Qed.

End Turn.

Section Run.

Variable getBody : string → string → string → Z → string.
Variable getHead : string → Z → string.
Variable getTitle : string → Z → string → string.
Variable labelRegExp : RegExp.t.
Variable payload : Payload.t.
Variable runId : Z.
Variable serverUrl : string.
Variable teamReviews : string.
Variable token : string.

#[local] Abbreviation backport :=
  (backport getBody getHead getTitle labelRegExp payload runId serverUrl
     teamReviews token).
#[local] Abbreviation backportEach :=
  (backportEach getBody getHead getTitle labelRegExp payload runId serverUrl
     teamReviews).
#[local] Abbreviation mergeCommitSha :=
  (default "" (PullRequest.merge_commit_sha (Payload.pull_request payload))).

(** A run either ends before the loop, having made prelude calls only, or
    reaches the loop with the routed base branches. *)
Lemma backport_run st r st' :
  backport st = (r, st') →
  (∃ prelude,
     Forall (λ event, preludeEvent event = true) prelude
     ∧ log st' = log st ++ prelude
     ∧ ((∃ error, r = inl error)
        ∨ (r = inr ∅ ∧ getBaseBranches labelRegExp payload = inr [])))
  ∨ (∃ baseBranches github prelude st1,
       getBaseBranches labelRegExp payload = inr baseBranches
       ∧ Forall (λ event, preludeEvent event = true) prelude
       ∧ log st1 = log st ++ prelude
       ∧ backportEach github mergeCommitSha baseBranches ∅ st1 = (r, st')).
Proof.
  unfold backport.
  destruct (negb _ || negb _) eqn:Hsecurity.
  { intros [= <- <-]. left. exists []. rewrite app_nil_r. eauto. }
  rewrite bind_run. unfold liftResult at 1.
  destruct (getBaseBranches labelRegExp payload) as [error|baseBranches]
    eqn:Hroute.
  { intros [= <- <-]. left. exists []. rewrite app_nil_r. eauto. }
  clear Hsecurity. case_bool_decide as Hlen.
  { destruct baseBranches; [|simpl in Hlen; lia].
    intros [= <- <-]. left. exists [EvInfo "No backports required."].
    split_and!; [by repeat constructor|done|by right]. }
  rewrite bind_run. unfold liftResult at 1.
  destruct (getOctokit token) as [error|github].
  { intros [= <- <-]. left. exists []. rewrite app_nil_r. eauto. }
  unfold warnIfSquashIsNotTheOnlyAllowedMergeMethod.
  unfold bind, ret, throw, info, warning, emit, liftResult, exec, request.
  simpl.
  next_call.
  { intros [= <- <-]. left. eexists. split_and!; [|done|eauto].
    by repeat constructor. }
  destruct (Data.allow_merge_commit data || Data.allow_rebase_merge data);
    simpl;
    (destruct (urlWithCredentials _ _ _) as [error|cloneUrl]; simpl;
     [intros [= <- <-]; left; eexists; rewrite <-?app_assoc;
      split_and!; [|done|eauto]; simpl; by repeat constructor|]);
    repeat next_call;
    try (intros [= <- <-]; left; eexists; rewrite <-?app_assoc;
         split_and!; [|done|eauto]; simpl; by repeat constructor);
    (intros Hloop; right; eexists baseBranches, github, _, _;
     split_and!; [done| | |exact Hloop];
     [|simpl; rewrite <-?app_assoc; reflexivity];
     simpl; by repeat constructor).
Qed.

(** C1 — When the merged flag is not [true], or the merge commit
    identifier is absent or empty, [backport] throws the security error and
    leaves the state as it found it: nothing was logged, no request was sent,
    no command was run, and no result object is returned. *)
Theorem security_precondition_refuses st :
  PullRequest.merged (Payload.pull_request payload) ≠ Some true
  ∨ PullRequest.merge_commit_sha (Payload.pull_request payload) = None
  ∨ PullRequest.merge_commit_sha (Payload.pull_request payload) = Some "" →
  backport st = (inl securityError, st).
Proof.
  intros Hpre. unfold backport.
  destruct (negb _ || negb _) eqn:Hsecurity; [done|].
  apply orb_false_elim in Hsecurity as [Hmerged Hsha].
  apply negb_false_iff in Hmerged, Hsha.
  apply bool_decide_eq_true_1 in Hmerged.
  destruct Hpre as [?|[Hnone|Hempty]]; [done| |].
  - by rewrite Hnone in Hsha.
  - by rewrite Hempty in Hsha.
Qed.

(** C2 (amended) — When the request that posts the failure comment, or
    the one that puts the failure labels, is refused with [error], the run
    ends there: [backport] throws [error] to its caller and returns no
    result object, and nothing follows the refused request in the log but
    the closing of the target's group (it is not sent again, and no later
    target is processed); no recovery request was refused before it. *)
Theorem recovery_failure_ends_the_run st r st' evs req error :
  backport st = (r, st') →
  log st' = log st ++ evs →
  recoveryRequest req = true →
  EvRequest req (inl error) ∈ evs →
  r = inl error
  ∧ ∃ before,
      evs = before ++ [EvRequest req (inl error); EvEndGroup]
      ∧ Forall (λ event, recoveryFailure event = false) before.
Proof.
  intros Hrun Hlog Hreq Hin.
  assert (recoveryFailure (EvRequest req (inl error)) = true) as Hrf by done.
  assert (∀ l, Forall (λ event, recoveryFailure event = false) l →
               EvRequest req (inl error) ∈ l → False) as Hnot.
  { intros l Hl Hel. rewrite Forall_forall in Hl. apply Hl in Hel.
    congruence. }
  destruct (backport_run st r st' Hrun)
    as [(prelude & Hprelude & Hlog' & _)
       |(baseBranches & github & prelude & st1 & _ & Hprelude & Hlog1 & Hloop)].
  { rewrite Hlog in Hlog'. apply app_inv_head in Hlog'. subst evs.
    destruct (Hnot prelude); [|done].
    eapply Forall_impl; [exact Hprelude|]. apply preludeEvent_not_recovery. }
  assert (Forall (λ event, recoveryFailure event = false) prelude) as Hquiet.
  { eapply Forall_impl; [exact Hprelude|]. apply preludeEvent_not_recovery. }
  pose proof (backportEach_run getBody getHead getTitle labelRegExp payload
                runId serverUrl teamReviews github mergeCommitSha
                baseBranches ∅ st1) as Hspec.
  rewrite Hloop in Hspec. destruct r as [error'|m].
  - destruct Hspec as (processed & base & rest & os & attempt & attemptError
                       & commented & -> & Hlen & Hos & Hfailed & Hlog').
    rewrite Hlog1, Hlog, <-?app_assoc in Hlog'.
    apply app_inv_head in Hlog'. subst evs.
    destruct (abortedEvents_split getHead payload runId serverUrl
                mergeCommitSha base attempt attemptError commented error'
                Hfailed) as (before & req' & Hreq' & Heq & Hbefore).
    rewrite Heq in Hin |- *.
    pose proof (allEvents_not_recovery getBody getHead getTitle labelRegExp
                  payload runId serverUrl teamReviews mergeCommitSha
                  processed os Hos) as Hall.
    assert (Forall (λ event, recoveryFailure event = false)
              (prelude
               ++ allEvents getBody getHead getTitle labelRegExp payload
                    runId serverUrl teamReviews mergeCommitSha processed os
               ++ before)) as Hpast
      by (rewrite !Forall_app; done).
    rewrite !app_assoc in Hin. rewrite <-(app_assoc prelude) in Hin.
    apply elem_of_app in Hin as [Hin|Hin]; [destruct (Hnot _ Hpast Hin)|].
    apply elem_of_cons in Hin as [Hin|Hin].
    + injection Hin as -> ->. split; [done|].
      eexists. split; [|exact Hpast]. by rewrite <-?app_assoc.
    + apply elem_of_cons in Hin as [Hin|Hin]; [done|].
      by apply elem_of_nil in Hin.
  - destruct Hspec as (os & Hlen & Hos & -> & Hlog').
    rewrite Hlog1, Hlog, <-?app_assoc in Hlog'.
    apply app_inv_head in Hlog'. subst evs.
    destruct (Hnot (prelude
                    ++ allEvents getBody getHead getTitle labelRegExp payload
                         runId serverUrl teamReviews mergeCommitSha
                         baseBranches os)); [|done].
    apply Forall_app. split; [done|by apply allEvents_not_recovery].
Qed.

(** X19 — When [backport] returns a result object, its keys are among
    the routed base branches; each key maps to the number of a pull request
    that the run created and finished (reviewers asked, labels put); and
    each routed base branch without a key, other than [__proto__], has in
    the log its failed attempt followed by the accepted failure comment
    and failure labels on the source pull request. *)
Theorem result_map_is_accounted_for st m st' :
  backport st = (inr m, st') →
  ∃ baseBranches evs,
    getBaseBranches labelRegExp payload = inr baseBranches
    ∧ log st' = log st ++ evs
    ∧ accountedFor getBody getHead getTitle labelRegExp payload runId
        serverUrl teamReviews baseBranches mergeCommitSha m evs.
Proof.
  intros Hrun.
  destruct (backport_run st (inr m) st' Hrun)
    as [(prelude & _ & Hlog & [[error ?]|[[= ->] Hroute]])
       |(baseBranches & github & prelude & st1 & Hroute & _ & Hlog1 & Hloop)];
    [done| |].
  - exists [], prelude. split_and!; [done..|].
    split_and!.
    + intros base Hin. by rewrite dom_empty_L in Hin.
    + intros base number Hm. by rewrite lookup_empty in Hm.
    + intros base Hin. by apply elem_of_nil in Hin.
  - pose proof (backportEach_run getBody getHead getTitle labelRegExp payload
                  runId serverUrl teamReviews github mergeCommitSha
                  baseBranches ∅ st1) as Hspec.
    rewrite Hloop in Hspec. destruct Hspec as (os & Hlen & Hos & -> & Hlog).
    destruct (recordAll_accounted getBody getHead getTitle labelRegExp payload
                runId serverUrl teamReviews mergeCommitSha baseBranches os ∅
                Hlen Hos) as [Hkeys Hmissing].
    exists baseBranches, (prelude ++ allEvents getBody getHead getTitle
                            labelRegExp payload runId serverUrl teamReviews
                            mergeCommitSha baseBranches os).
    split_and!; [done|by rewrite Hlog, Hlog1, <-?app_assoc|].
    split_and!.
    + intros base [number Hm]%elem_of_dom.
      destruct (Hkeys base number Hm) as [Hempty|[Hin _]]; [|done].
      by rewrite lookup_empty in Hempty.
    + intros base number Hm.
      destruct (Hkeys base number Hm)
        as [Hempty|(_ & before & d1 & d2 & d3 & after & Hn & Hevs)].
      { by rewrite lookup_empty in Hempty. }
      exists (prelude ++ before), d1, d2, d3, after.
      split; [done|]. by rewrite Hevs, <-?app_assoc.
    + intros base Hin Hproto Hm.
      destruct (Hmissing base Hin Hproto Hm)
        as (before & attempt & error & d4 & d5 & after & Hfailed & Hevs).
      exists (prelude ++ before), attempt, error, d4, d5, after.
      split; [done|]. by rewrite Hevs, <-?app_assoc.
Qed.

End Run.

End EngineFacts.

(** ** The router's configuration error, and the claims at concrete runs *)

(** C4 (amended) — When the pattern matches a label with named groups
    among which [base] is missing or empty, the router throws, and a run
    that tests this label ends with that error before any effect.  A label
    the pattern does not match yields no base branch and no error, and so
    does a label matched by a pattern that has no named group at all. *)
Theorem missing_base_group_fails_the_run `{Runtime} labelRegExp label :
  (lacksBase labelRegExp label = true →
   (∃ error, getBaseBranchFromLabel label labelRegExp = inl error)
   ∧ ∀ getBody getHead getTitle payload runId serverUrl teamReviews token st,
       label ∈ testedLabels payload →
       PullRequest.merged (Payload.pull_request payload) = Some true →
       truthy (PullRequest.merge_commit_sha (Payload.pull_request payload))
       = true →
       ∃ error,
         getBaseBranches labelRegExp payload = inl error
         ∧ backport getBody getHead getTitle labelRegExp payload runId
             serverUrl teamReviews token st
           = (inl error, st))
  ∧ (RegExp.exec labelRegExp label = None →
     getBaseBranchFromLabel label labelRegExp = inr None
     ∧ baseCapture labelRegExp label = None)
  ∧ (∀ result,
       RegExp.exec labelRegExp label = Some result →
       RegExp.groups result = None →
       getBaseBranchFromLabel label labelRegExp = inr None
       ∧ baseCapture labelRegExp label = None).
Proof.
  split_and!.
  - intros Hlacks. split; [by apply getBaseBranchFromLabel_lacksBase|].
    intros getBody getHead getTitle payload runId serverUrl teamReviews token
      st Hin Hmerged Hsha.
    destruct (getBaseBranches_lacksBase labelRegExp payload label Hin Hlacks)
      as [error Hroute].
    exists error. split; [done|].
    unfold backport. rewrite Hmerged, Hsha, bool_decide_eq_true_2 by done.
    simpl. rewrite bind_run. by rewrite Hroute.
  - intros Hnone. unfold getBaseBranchFromLabel, baseCapture.
    by rewrite Hnone.
  - intros result Hsome Hgroups. unfold getBaseBranchFromLabel, baseCapture.
    by rewrite Hsome, Hgroups.
Qed.

(** The configuration error at a concrete pattern: [/backport (?<to>.+)/]
    matches [backport 5.3] and has no group [base]. *)
Lemma missing_base_group_fails_the_run_witness :
  lacksBase misnamed "backport 5.3" = true
  ∧ ∃ error,
      getBaseBranches misnamed (closedEvent ["backport 5.3"] (Some true)
                                  (Some "abc123"))
      = inl error
      ∧ sampleRun misnamed
          (closedEvent ["backport 5.3"] (Some true) (Some "abc123")) []
        = (inl error, start []).
Proof.
  split; [reflexivity|].
  refine (proj2 (proj1 (missing_base_group_fails_the_run misnamed
                          "backport 5.3") eq_refl)
            sampleBody sampleHead sampleTitle
            (closedEvent ["backport 5.3"] (Some true) (Some "abc123")) 7
            "https://github.com" "release" "TOKEN" (start []) _ eq_refl
            eq_refl).
  by left.
Defined.

(** C4, as stated, fails for a pattern without named groups: [/backport/]
    matches the label, the match has no [base] group, and the router
    returns an empty list instead of throwing; the run ends normally. *)
Lemma unnamed_pattern_is_not_an_error :
  RegExp.test unnamed "backport 5.3" = true
  ∧ getBaseBranchFromLabel "backport 5.3" unnamed = inr None
  ∧ getBaseBranches unnamed
      (closedEvent ["backport 5.3"] (Some true) (Some "abc123"))
    = inr []
  ∧ (sampleRun unnamed
       (closedEvent ["backport 5.3"] (Some true) (Some "abc123")) []).1
    = inr ∅.
Proof. split_and!; reflexivity. Qed.


(** C1 at the sample event, not merged. *)
Lemma security_precondition_refuses_witness :
  PullRequest.merged (Payload.pull_request unmergedEvent) ≠ Some true
  ∧ sampleRun afterBase unmergedEvent preludeAnswers
    = (inl securityError, start preludeAnswers).
Proof.
  assert (PullRequest.merged (Payload.pull_request unmergedEvent) ≠ Some true)
    as Hunmerged by discriminate.
  split; [exact Hunmerged|].
  exact (security_precondition_refuses sampleBody sampleHead sampleTitle
           afterBase unmergedEvent 7 "https://github.com" "release" "TOKEN"
           (start preludeAnswers) (or_introl Hunmerged)).
Defined.

(** C2, as stated, fails: the cherry-pick onto [5.3] conflicts, the
    failure comment is refused, and [backport] throws the refusal to its
    caller instead of returning a result object. *)
Lemma refused_comment_is_thrown :
  (sampleRun afterBase sampleEvent (preludeAnswers ++ conflictThenRefused)).1
  = inl {| message := "comment refused" |}
  ∧ groupsOpened
      (log (sampleRun afterBase sampleEvent
              (preludeAnswers ++ conflictThenRefused)).2)
    = ["Backporting to 5.3 on backport-42-to-5.3."].
Proof. split; vm_compute; reflexivity. Qed.

(** C2 (amended) at that run. *)
Lemma recovery_failure_ends_the_run_witness :
  recoveryRequest
    (failureComment sampleHead sampleEvent 7 "https://github.com" "abc123"
       "5.3" {| message := "conflict" |})
  = true
  ∧ EvRequest
      (failureComment sampleHead sampleEvent 7 "https://github.com" "abc123"
         "5.3" {| message := "conflict" |})
      (inl {| message := "comment refused" |})
    ∈ log (sampleRun afterBase sampleEvent
             (preludeAnswers ++ conflictThenRefused)).2
  ∧ (sampleRun afterBase sampleEvent (preludeAnswers ++ conflictThenRefused)).1
    = inl {| message := "comment refused" |}
  ∧ ∃ before,
      log (sampleRun afterBase sampleEvent
             (preludeAnswers ++ conflictThenRefused)).2
      = before
        ++ [EvRequest
              (failureComment sampleHead sampleEvent 7 "https://github.com"
                 "abc123" "5.3" {| message := "conflict" |})
              (inl {| message := "comment refused" |});
            EvEndGroup]
      ∧ Forall (λ event, recoveryFailure event = false) before.
Proof.
  assert (EvRequest
            (failureComment sampleHead sampleEvent 7 "https://github.com"
               "abc123" "5.3" {| message := "conflict" |})
            (inl {| message := "comment refused" |})
          ∈ log (sampleRun afterBase sampleEvent
                   (preludeAnswers ++ conflictThenRefused)).2) as Hin.
  { apply list_elem_of_lookup. exists 11%nat. vm_compute. reflexivity. }
  split; [reflexivity|]. split; [exact Hin|].
  exact (recovery_failure_ends_the_run sampleBody sampleHead sampleTitle
           afterBase sampleEvent 7 "https://github.com" "release" "TOKEN"
           (start (preludeAnswers ++ conflictThenRefused)) _ _
           (log (sampleRun afterBase sampleEvent
                   (preludeAnswers ++ conflictThenRefused)).2)
           (failureComment sampleHead sampleEvent 7 "https://github.com"
              "abc123" "5.3" {| message := "conflict" |})
           {| message := "comment refused" |}
           (surjective_pairing _) eq_refl eq_refl Hin).
Defined.

(** X19 at a run in which [5.3] fails and is recovered from, and [5.4] is
    published as #101. *)
Lemma result_map_is_accounted_for_witness :
  sampleRun afterBase sampleEvent (preludeAnswers ++ conflictThenPublished)
  = (inr {[ "5.4" := 101 ]},
     (sampleRun afterBase sampleEvent
        (preludeAnswers ++ conflictThenPublished)).2)
  ∧ ∃ baseBranches evs,
      getBaseBranches afterBase sampleEvent = inr baseBranches
      ∧ log (sampleRun afterBase sampleEvent
               (preludeAnswers ++ conflictThenPublished)).2
        = [] ++ evs
      ∧ accountedFor sampleBody sampleHead sampleTitle afterBase sampleEvent
          7 "https://github.com" "release" baseBranches "abc123"
          {[ "5.4" := 101 ]} evs.
Proof.
  assert (sampleRun afterBase sampleEvent
            (preludeAnswers ++ conflictThenPublished)
          = (inr {[ "5.4" := 101 ]},
             (sampleRun afterBase sampleEvent
                (preludeAnswers ++ conflictThenPublished)).2)) as Hrun
    by (vm_compute; reflexivity).
  split; [exact Hrun|].
  exact (result_map_is_accounted_for sampleBody sampleHead sampleTitle
           afterBase sampleEvent 7 "https://github.com" "release" "TOKEN"
           (start (preludeAnswers ++ conflictThenPublished)) _ _ Hrun).
Defined.

(** C6, as stated, fails: when the recovery from the failure of [5.3] is
    refused, the loop ends with that error and [5.4] is never processed. *)
Lemma refused_recovery_stops_the_loop :
  (sampleLoop conflictThenRefused).1 = inl {| message := "comment refused" |}
  ∧ groupsOpened (log (sampleLoop conflictThenRefused).2)
    = ["Backporting to 5.3 on backport-42-to-5.3."].
Proof. split; vm_compute; reflexivity. Qed.

(** C6 (amended) at a loop in which [5.3] fails, is recovered from, and
    [5.4] is then published. *)
Lemma failed_target_does_not_stop_the_loop_witness :
  Forall (λ event, recoveryFailure event = false)
    (log (sampleLoop conflictThenPublished).2)
  ∧ groupsOpened (log (sampleLoop conflictThenPublished).2)
    = ["Backporting to 5.3 on backport-42-to-5.3.";
       "Backporting to 5.4 on backport-42-to-5.4."]
  ∧ ∃ os,
      length os = 2%nat
      ∧ Forall wellFormed os
      ∧ (sampleLoop conflictThenPublished).1
        = inr (recordAll ∅ ["5.3"; "5.4"] os)
      ∧ log (sampleLoop conflictThenPublished).2
        = allEvents sampleBody sampleHead sampleTitle afterBase sampleEvent
            7 "https://github.com" "release" "abc123" ["5.3"; "5.4"] os.
Proof.
  assert (Forall (λ event, recoveryFailure event = false)
            (log (sampleLoop conflictThenPublished).2)) as Hquiet
    by (vm_compute; repeat constructor).
  split; [exact Hquiet|]. split; [vm_compute; reflexivity|].
  exact (failed_target_does_not_stop_the_loop sampleBody sampleHead
           sampleTitle afterBase sampleEvent 7 "https://github.com" "release"
           "TOKEN" "abc123" ["5.3"; "5.4"] ∅ (start conflictThenPublished)
           _ _ (log (sampleLoop conflictThenPublished).2)
           (surjective_pairing _) eq_refl Hquiet).
Defined.



(** ** Further properties: the strip operation *)

Section StripExtras.

Implicit Types body pre mid post : string.

Lemma length_drop s n :
  String.length (JS.drop n s) = (String.length s - n)%nat.
Proof.
  revert s. induction n as [|n IH]; intros [|c s]; simpl; done.
Qed.

Lemma drop_app_le a b n :
  (n ≤ String.length a)%nat → JS.drop n (a +:+ b) = JS.drop n a +:+ b.
Proof.
  revert a. induction n as [|n IH]; intros a Hn.
  - by rewrite !drop_0.
  - destruct a as [|c a]; simpl in Hn; [lia|]. simpl. apply IH. lia.
Qed.

(** When both delimiters are found, what is removed is one whole comment. *)
Lemma strip_found body k j :
  JS.find startDelimiter body = Some k →
  JS.find endDelimiter (JS.drop (k + 4) body) = Some j →
  ∃ inner post,
    body = JS.take k body +:+ (startDelimiter +:+ inner +:+ endDelimiter)
           +:+ post
    ∧ JS.drop (k + 4 + j + 3) body = post.
Proof.
  intros Hs He.
  destruct (find_Some _ _ _ Hs) as [(post1 & H1 & H2 & _) _].
  destruct (find_Some _ _ _ He) as [(post2 & H3 & H4 & Hj) _].
  assert (JS.drop (k + 4) body = post1) as Hpost1.
  { rewrite <-drop_drop, H2. done. }
  rewrite Hpost1 in *.
  exists (JS.take j post1), post2. split.
  - rewrite H1 at 1. f_equal. rewrite !app_assoc'. f_equal. done.
  - replace (k + 4 + j + 3)%nat with ((k + 4) + (j + 3))%nat by lia.
    rewrite <-drop_drop, Hpost1, <-drop_drop, H4.
    change 3%nat with (String.length endDelimiter).
    apply drop_app_length.
Qed.

(** X1 — The strip operation removes at most one piece of the body, and
    that piece is a whole comment: the start delimiter, some text, the end
    delimiter.  What stands before and after the piece is kept as it is. *)
Theorem strip_removes_one_whole_comment body :
  ∃ pre mid post,
    body = pre +:+ mid +:+ post
    ∧ stripTestPlanFromPRBody body = pre +:+ post
    ∧ (mid = ""
       ∨ ∃ inner, mid = startDelimiter +:+ inner +:+ endDelimiter).
Proof.
  destruct (strip_cases body)
    as [[_ Hsame]|[(k & _ & _ & Hsame)|(k & j & Hs & He & Hstrip)]].
  - exists body, "", "". rewrite Hsame.
    split_and!; [by rewrite !app_empty_r|by rewrite app_empty_r|by left].
  - exists body, "", "". rewrite Hsame.
    split_and!; [by rewrite !app_empty_r|by rewrite app_empty_r|by left].
  - destruct (strip_found body k j Hs He) as (inner & post & Hbody & Hpost).
    exists (JS.take k body), (startDelimiter +:+ inner +:+ endDelimiter), post.
    rewrite Hstrip, Hpost. split_and!; [exact Hbody|done|eauto].
Qed.

(** X2 — The strip operation returns the body unchanged exactly when the
    body holds no start delimiter followed by an end delimiter; when it
    changes the body, the result is shorter by at least the seven
    characters of the two delimiters. *)
Theorem strip_unchanged_iff_no_pair body :
  (stripTestPlanFromPRBody body = body ↔ no_delimiter_pair body)
  ∧ (stripTestPlanFromPRBody body = body
     ∨ (String.length (stripTestPlanFromPRBody body) + 7
        ≤ String.length body)%nat).
Proof.
  assert (stripTestPlanFromPRBody body = body ∧ no_delimiter_pair body
          ∨ (String.length (stripTestPlanFromPRBody body) + 7
             ≤ String.length body)%nat
            ∧ ¬ no_delimiter_pair body) as [[Hsame Hno]|[Hshort Hpair]].
  { destruct (strip_cases body)
      as [[Hnone Hsame]|[(k & Hs & Hnone & Hsame)|(k & j & Hs & He & Hstrip)]].
    - left. split; [done|]. intros pre mid post Heq.
      by eapply (find_None _ _ Hnone).
    - left. split; [done|]. intros pre mid post Heq.
      destruct (find_Some _ _ _ Hs) as [_ Hmin].
      assert (k ≤ String.length pre)%nat as Hk.
      { destruct (decide (k ≤ String.length pre)%nat) as [|Hgt]; [done|].
        destruct (Hmin (String.length pre)); [lia|].
        by exists pre, (mid +:+ endDelimiter +:+ post). }
      eapply (find_None _ _ Hnone
                (JS.drop (k + 4) (pre +:+ startDelimiter +:+ mid)) post).
      rewrite Heq.
      replace (pre +:+ startDelimiter +:+ mid +:+ endDelimiter +:+ post)
        with ((pre +:+ startDelimiter +:+ mid) +:+ endDelimiter +:+ post)
        by (by rewrite !app_assoc').
      apply drop_app_le. rewrite !length_app'.
      change (String.length startDelimiter) with 4%nat. lia.
    - right.
      destruct (strip_found body k j Hs He) as (inner & post & Hbody & Hpost).
      split.
      + rewrite Hstrip, Hpost.
        apply (f_equal String.length) in Hbody.
        rewrite length_app'. repeat rewrite length_app' in Hbody.
        change (String.length startDelimiter) with 4%nat in Hbody.
        change (String.length endDelimiter) with 3%nat in Hbody. lia.
      + intros Hno. apply (Hno (JS.take k body) inner post).
        rewrite Hbody at 1. by rewrite !app_assoc'. }
  - split; [done|by left].
  - split; [|by right]. split; [|done].
    intros Hsame. rewrite Hsame in Hshort. lia.
Qed.

End StripExtras.

(** ** Further properties: the label router *)

Section RouterExtras.

Variable labelRegExp : RegExp.t.

Lemma omap_length_le {A B : Type} (f : A → option B) (l : list A) :
  (length (omap f l) ≤ length l)%nat.
Proof.
  induction l as [|x l IH]; csimpl; [done|].
  destruct (f x); csimpl; lia.
Qed.

Lemma baseCapture_nonempty label base :
  baseCapture labelRegExp label = Some base → base ≠ "".
Proof.
  unfold baseCapture.
  destruct (RegExp.exec labelRegExp label) as [[[groups|]]|]; try done.
  simpl. destruct (groups !! "base") as [b|]; simpl; [|done].
  destruct (String.eqb_spec b ""); simpl; [done|]. by intros [= <-].
Qed.

(** The two ways through [getBaseBranchFromLabel]. *)
Lemma getBaseBranchFromLabel_cases label :
  (lacksBase labelRegExp label = true
   ∧ getBaseBranchFromLabel label labelRegExp
     = inl {| message := missingBaseMessage labelRegExp label |})
  ∨ (lacksBase labelRegExp label = false
     ∧ ∃ value,
         getBaseBranchFromLabel label labelRegExp = inr value
         ∧ compact [value] = option_list (baseCapture labelRegExp label)).
Proof.
  destruct (lacksBase labelRegExp label) eqn:Hlacks.
  - left. split; [done|]. revert Hlacks.
    unfold lacksBase, getBaseBranchFromLabel.
    destruct (RegExp.exec labelRegExp label) as [[[groups|]]|]; try done.
    simpl. by intros ->.
  - right. split; [done|]. by apply getBaseBranchFromLabel_capture.
Qed.

(** Mapping the router over labels: all go through, or the first label
    that lacks [base] throws. *)
Lemma Array_map_cases (labels : list Label.t) :
  (Forall (λ label, lacksBase labelRegExp label = false)
     (map Label.name labels)
   ∧ ∃ values,
       Array_map
         (λ label, getBaseBranchFromLabel (Label.name label) labelRegExp)
         labels = inr values
       ∧ compact values
         = omap (baseCapture labelRegExp) (map Label.name labels))
  ∨ (∃ before label after,
       map Label.name labels = before ++ label :: after
       ∧ Forall (λ label, lacksBase labelRegExp label = false) before
       ∧ lacksBase labelRegExp label = true
       ∧ Array_map
           (λ label, getBaseBranchFromLabel (Label.name label) labelRegExp)
           labels
         = inl {| message := missingBaseMessage labelRegExp label |}).
Proof.
  induction labels as [|label labels IH]; simpl.
  - left. split; [constructor|]. by exists [].
  - destruct (getBaseBranchFromLabel_cases (Label.name label))
      as [[Hlacks ->]|(Hlacks & value & -> & Hvalue)].
    + right. exists [], (Label.name label), (map Label.name labels).
      split_and!; [done|constructor|done..].
    + destruct IH as [(Hall & values & -> & Hvalues)
                     |(before & bad & after & Hnames & Hbefore & Hbad & ->)].
      * left. split; [by constructor|]. exists (value :: values).
        split; [done|]. rewrite compact_cons, Hvalue, Hvalues.
        by destruct (baseCapture labelRegExp (Label.name label)).
      * right. exists (Label.name label :: before), bad, after.
        split_and!; [by rewrite Hnames|by constructor|done..].
Qed.

Lemma getBaseBranches_cases payload :
  (Forall (λ label, lacksBase labelRegExp label = false)
     (testedLabels payload)
   ∧ getBaseBranches labelRegExp payload
     = inr (omap (baseCapture labelRegExp) (testedLabels payload)))
  ∨ (∃ before label after,
       testedLabels payload = before ++ label :: after
       ∧ Forall (λ label, lacksBase labelRegExp label = false) before
       ∧ lacksBase labelRegExp label = true
       ∧ getBaseBranches labelRegExp payload
         = inl {| message := missingBaseMessage labelRegExp label |}).
Proof.
  unfold testedLabels, getBaseBranches.
  destruct (Payload.label payload) as [triggering|].
  - destruct (getBaseBranchFromLabel_cases (Label.name triggering))
      as [[Hlacks ->]|(Hlacks & value & -> & Hvalue)].
    + right. exists [], (Label.name triggering), [].
      split_and!; [done|constructor|done..].
    + left. split; [by repeat constructor|]. f_equal. simpl.
      transitivity (compact [value]); [simpl; by destruct (truthy value)|].
      rewrite Hvalue.
      by destruct (baseCapture labelRegExp (Label.name triggering)).
  - destruct (Array_map_cases
                (PullRequest.labels (Payload.pull_request payload)))
      as [(Hall & values & -> & Hvalues)
         |(before & bad & after & Hnames & Hbefore & Hbad & ->)].
    + left. by rewrite Hvalues.
    + right. by exists before, bad, after.
Qed.

(** X3 — The router throws only for a tested label that the pattern
    matches with named groups but without a usable [base]; the error is the
    one for the first such label, and its message names the pattern and
    that label. *)
Theorem router_throws_for_the_first_label_without_base payload error :
  getBaseBranches labelRegExp payload = inl error →
  ∃ before label after,
    testedLabels payload = before ++ label :: after
    ∧ Forall (λ label, lacksBase labelRegExp label = false) before
    ∧ lacksBase labelRegExp label = true
    ∧ message error
      = "RegExp " +:+ dquote +:+ "/" +:+ RegExp.source labelRegExp +:+ "/"
        +:+ dquote +:+ " matched " +:+ dquote +:+ label +:+ dquote
        +:+ " but missed a " +:+ dquote +:+ "base" +:+ dquote
        +:+ " named capturing group.".
Proof.
  intros Hthrow.
  destruct (getBaseBranches_cases payload)
    as [[_ Hok]|(before & label & after & Htested & Hbefore & Hbad & Herr)];
    [congruence|].
  exists before, label, after. split_and!; [done..|].
  rewrite Hthrow in Herr. injection Herr as ->. simpl.
  unfold missingBaseMessage, RegExp.toString. by rewrite !app_assoc'.
Qed.

(** X4 — Whatever the event, the base branches the router returns are
    the [base] captures of the tested labels, in their order; none of them
    is the empty string, and there are no more of them than tested labels. *)
Theorem router_returns_the_captures payload baseBranches :
  getBaseBranches labelRegExp payload = inr baseBranches →
  baseBranches = omap (baseCapture labelRegExp) (testedLabels payload)
  ∧ Forall (λ base, base ≠ "") baseBranches
  ∧ (length baseBranches ≤ length (testedLabels payload))%nat.
Proof.
  intros Hroute.
  destruct (getBaseBranches_cases payload)
    as [[_ Hok]|(before & label & after & _ & _ & _ & Herr)]; [|congruence].
  rewrite Hroute in Hok. injection Hok as ->. split_and!; [done| |].
  - apply Forall_forall. intros base [label [_ Hcap]]%list_elem_of_omap.
    by eapply baseCapture_nonempty.
  - apply omap_length_le.
Qed.

(** X5 — For a labeled event the router looks at the label that
    triggered the event and at nothing else: two labeled events with the
    same triggering label are routed alike, whatever labels their pull
    requests carry, and at most one base branch comes back. *)
Theorem labeled_event_routes_its_label_only payload payload' label :
  Payload.label payload = Some label →
  Payload.label payload' = Some label →
  getBaseBranches labelRegExp payload = getBaseBranches labelRegExp payload'
  ∧ ∀ baseBranches,
      getBaseBranches labelRegExp payload = inr baseBranches →
      (length baseBranches ≤ 1)%nat.
Proof.
  intros Hlabel Hlabel'. unfold getBaseBranches.
  rewrite Hlabel, Hlabel'. split; [done|].
  intros baseBranches.
  destruct (getBaseBranchFromLabel (Label.name label) labelRegExp)
    as [error|base]; [done|].
  intros [= <-]. destruct (truthy base); simpl; lia.
Qed.

End RouterExtras.

(** ** Further properties: the engine *)

Section EngineExtras.

Context `{Runtime}.

(** *** Invariants of the events of an attempt *)

Lemma attempt_events_are_target_commands mergeCommitSha a base body github
    head labels mb o r tr title st :
  ∃ evs,
    log (backportOnce a base body mergeCommitSha github head labels mb o r tr
           title st).2 = log st ++ evs
    ∧ Forall (targetCommand r) evs.
Proof.
  unfold_engine.
  destruct (bool_decide (0 < length labels)%nat);
    repeat next_call; rewrite <-?app_assoc; simpl;
    (eexists; split; [reflexivity|]);
    repeat (constructor; [first [exact I|simpl; split_and!; [done..|]]|]);
    try constructor;
    eexists _, _; (split; [reflexivity|]);
    repeat first [apply list_elem_of_here|apply list_elem_of_further].
Qed.

Lemma attempt_events_are_attempt_events (Q : Event → Prop) mergeCommitSha a
    base body github head labels mb o r tr title st :
  (∀ event, attemptEvent event = true → Q event) →
  (∀ msg, Q (EvInfo msg)) →
  ∃ evs,
    log (backportOnce a base body mergeCommitSha github head labels mb o r tr
           title st).2 = log st ++ evs
    ∧ Forall Q evs.
Proof.
  intros Hattempt Hinfo. unfold_engine.
  destruct (bool_decide (0 < length labels)%nat);
    repeat next_call; rewrite <-?app_assoc; simpl;
    (eexists; split; [reflexivity|]);
    repeat (constructor; [first [apply Hinfo|by apply Hattempt]|]);
    constructor.
Qed.

Lemma attempt_events_are_loop_events mergeCommitSha a base body github head
    labels mb o r tr title st :
  ∃ evs,
    log (backportOnce a base body mergeCommitSha github head labels mb o r tr
           title st).2 = log st ++ evs
    ∧ Forall (λ event, preLoopOnly event = false ∧ isClone event = false) evs.
Proof.
  unfold_engine.
  destruct (bool_decide (0 < length labels)%nat);
    repeat next_call; rewrite <-?app_assoc; simpl;
    (eexists; split; [reflexivity|]); by repeat constructor.
Qed.

Section Invariant.

Variable getBody : string → string → string → Z → string.
Variable getHead : string → Z → string.
Variable getTitle : string → Z → string → string.
Variable labelRegExp : RegExp.t.
Variable payload : Payload.t.
Variable runId : Z.
Variable serverUrl : string.
Variable teamReviews : string.

#[local] Abbreviation backportBase :=
  (backportBase getBody getHead getTitle labelRegExp payload runId serverUrl
     teamReviews).
#[local] Abbreviation backportEach :=
  (backportEach getBody getHead getTitle labelRegExp payload runId serverUrl
     teamReviews).
#[local] Abbreviation failureComment :=
  (failureComment getHead payload runId serverUrl).

Variable Q : Event → Prop.

Hypothesis Q_attempt :
  ∀ mergeCommitSha a base body github head labels mb tr title st,
    ∃ evs,
      log (backportOnce a base body mergeCommitSha github head labels mb
             (owner payload) (repo payload) tr title st).2 = log st ++ evs
      ∧ Forall Q evs.
Hypothesis Q_start : ∀ name, Q (EvStartGroup name).
Hypothesis Q_end : Q EvEndGroup.
Hypothesis Q_error : ∀ error, Q (EvError error).

(** One turn of the loop only logs events that satisfy [Q], when the
    attempt does and the recovery for this target does. *)
Lemma backportBase_invariant github mergeCommitSha created base st :
  (∀ error o, Q (EvRequest (failureComment mergeCommitSha base error) o)) →
  (∀ o, Q (EvRequest (failureLabelling payload base) o)) →
  ∃ evs,
    log (backportBase github mergeCommitSha created base st).2
    = log st ++ evs
    ∧ Forall Q evs.
Proof.
  intros Hcomment Hlabels.
  unfold backportBase, group, tryFinally, tryCatch, bind, ret, logError,
    emit, ensureError.
  simpl.
  set (st0 := {| world := world st; log := log st ++ [EvStartGroup _] |}).
  match goal with
  | |- context [backportOnce ?a ?b ?c ?d ?e ?f ?g ?h ?i ?j ?k ?l st0] =>
      destruct (Q_attempt d a b c e f g h k l st0) as (attempt & Hlog & HQ);
      destruct (backportOnce a b c d e f g h i j k l st0) as [[error|n] st1]
  end; simpl in *.
  - unfold request. repeat next_call; rewrite ?Hlog, <-?app_assoc; simpl;
      (eexists; split; [reflexivity|]);
      (constructor; [apply Q_start|]);
      (apply Forall_app; split; [exact HQ|]);
      repeat (constructor;
              [first [apply Q_error|apply Q_end|apply Hcomment
                     |apply Hlabels]|]);
      constructor.
  - rewrite Hlog, <-?app_assoc. simpl.
    eexists. split; [reflexivity|].
    constructor; [apply Q_start|].
    apply Forall_app. split; [exact HQ|]. by repeat constructor.
Qed.

(** The loop only logs events that satisfy [Q]. *)
Lemma backportEach_invariant github mergeCommitSha baseBranches created st :
  (∀ base error o,
     base ∈ baseBranches →
     Q (EvRequest (failureComment mergeCommitSha base error) o)) →
  (∀ base o,
     base ∈ baseBranches → Q (EvRequest (failureLabelling payload base) o)) →
  ∃ evs,
    log (backportEach github mergeCommitSha baseBranches created st).2
    = log st ++ evs
    ∧ Forall Q evs.
Proof.
  revert created st.
  induction baseBranches as [|base rest IH]; intros created st Hcomment
    Hlabels; simpl.
  - exists []. by rewrite app_nil_r.
  - rewrite bind_run.
    destruct (backportBase_invariant github mergeCommitSha created base st)
      as (evs1 & Hlog1 & HQ1).
    { intros error o. apply Hcomment. by left. }
    { intros o. apply Hlabels. by left. }
    destruct (backportBase github mergeCommitSha created base st)
      as [[error|m] st1]; simpl in *; [eauto|].
    destruct (IH m st1) as (evs2 & Hlog2 & HQ2).
    { intros base' error o Hin. apply Hcomment. by right. }
    { intros base' o Hin. apply Hlabels. by right. }
    exists (evs1 ++ evs2). split.
    + by rewrite Hlog2, Hlog1, <-app_assoc.
    + by apply Forall_app.
Qed.

End Invariant.

(** *** One attempt *)

(** X11 — An attempt sends a request only after its four commands went
    through (switch, creation of the head branch, cherry-pick, push); the
    first request is the creation of the pull request, and the attempt
    creates no second one and runs no command after it. *)
Theorem requests_need_the_pushed_branch mergeCommitSha a base body github
    head labels mb o r tr title st res st' evs req outcome :
  backportOnce a base body mergeCommitSha github head labels mb o r tr title
    st = (res, st') →
  log st' = log st ++ evs →
  EvRequest req outcome ∈ evs →
  ∃ created rest,
    evs = [ EvExec "git" ["switch"; base] (Some r) None;
            EvExec "git" ["switch"; "--create"; head] (Some r) None;
            EvExec "git" ["cherry-pick"; "-x"; mergeCommitSha] (Some r) None;
            EvExec "git" ["push"; "--set-upstream"; "origin"; head] (Some r)
              None;
            EvRequest (CreatePull base body head o r title) created ]
          ++ rest
    ∧ Forall (λ event, isCommand event = false ∧ isCreatePull event = false)
        rest.
Proof.
  unfold_engine.
  destruct (bool_decide (0 < length labels)%nat);
    repeat next_call; intros [= <- <-]; rewrite <-?app_assoc; simpl;
    intros Hlog%app_inv_head Hin; subst evs;
    repeat (apply elem_of_cons in Hin as [Hin|Hin]; [simplify_eq|]);
    try (by apply elem_of_nil in Hin);
    eexists _, _; (split; [reflexivity|]); by repeat constructor.
Qed.

(** X12 — An attempt runs [git cherry-pick --abort] only when its
    cherry-pick failed. *)
Theorem abort_only_after_a_failed_cherry_pick mergeCommitSha a base body
    github head labels mb o r tr title st res st' evs commandLine cwd
    outcome :
  backportOnce a base body mergeCommitSha github head labels mb o r tr title
    st = (res, st') →
  log st' = log st ++ evs →
  EvExec commandLine ["cherry-pick"; "--abort"] cwd outcome ∈ evs →
  ∃ error,
    EvExec "git" ["cherry-pick"; "-x"; mergeCommitSha] (Some r) (Some error)
    ∈ evs.
Proof.
  unfold_engine.
  destruct (bool_decide (0 < length labels)%nat);
    repeat next_call; intros [= <- <-]; rewrite <-?app_assoc; simpl;
    intros Hlog%app_inv_head Hin; subst evs;
    repeat (apply elem_of_cons in Hin as [Hin|Hin]; [simplify_eq|]);
    try (by apply elem_of_nil in Hin);
    eexists;
    repeat first [apply list_elem_of_here|apply list_elem_of_further].
Qed.

Lemma reviewersOf_spec a mb :
  NoDup (reviewersOf a mb)
  ∧ reviewersOf a mb !! 0%nat = Some a
  ∧ ∀ x, x ∈ reviewersOf a mb ↔ x = a ∨ (x = mb ∧ mb ≠ "").
Proof.
  unfold reviewersOf.
  destruct (String.eqb_spec a mb) as [->|Hne]; simpl.
  - split_and!; [apply NoDup_singleton|done|]. intros x.
    rewrite list_elem_of_singleton.
    split; [by left|by intros [?|[? _]]].
  - destruct (String.eqb_spec mb "") as [->|Hempty]; simpl.
    + split_and!; [apply NoDup_singleton|done|]. intros x.
      rewrite list_elem_of_singleton.
      split; [by left|by intros [?|[_ ?]]].
    + split_and!; [|done|].
      * apply NoDup_cons. split; [|apply NoDup_singleton].
        by rewrite list_elem_of_singleton.
      * intros x. rewrite !elem_of_cons, elem_of_nil.
        split; [intros [?|[?|[]]]; eauto|intros [?|[? _]]; eauto].
Qed.

(** X18 — The reviewers an attempt asks for are the author, first, and
    the merger when there is one who is not the author: nobody is listed
    twice.  A team is asked exactly when the team input is not empty. *)
Theorem reviewers_are_the_author_and_the_merger mergeCommitSha a base body
    github head labels mb o r tr title st res st' evs o' number r' reviewers
    team outcome :
  backportOnce a base body mergeCommitSha github head labels mb o r tr title
    st = (res, st') →
  log st' = log st ++ evs →
  EvRequest (RequestReviewers o' number r' reviewers team) outcome ∈ evs →
  NoDup reviewers
  ∧ reviewers !! 0%nat = Some a
  ∧ (∀ x, x ∈ reviewers ↔ x = a ∨ (x = mb ∧ mb ≠ ""))
  ∧ (tr = "" → team = None)
  ∧ (tr ≠ "" → team = Some [tr]).
Proof.
  intros Hrun Hlog Hin.
  assert (reviewers = reviewersOf a mb ∧ team = teamReviewersOf tr)
    as [-> ->].
  { revert Hrun Hlog Hin. unfold_engine.
    destruct (bool_decide (0 < length labels)%nat);
      repeat next_call; intros [= <- <-]; rewrite <-?app_assoc; simpl;
      intros Hlog%app_inv_head Hin; subst evs;
      repeat (apply elem_of_cons in Hin as [Hin|Hin]; [simplify_eq|]);
      try (by apply elem_of_nil in Hin); done. }
  destruct (reviewersOf_spec a mb) as (? & ? & ?).
  split_and!; [done..| |].
  - intros ->. done.
  - intros Hne. unfold teamReviewersOf.
    by destruct (String.eqb_spec tr "").
Qed.

Section TurnExtras.

Variable getBody : string → string → string → Z → string.
Variable getHead : string → Z → string.
Variable getTitle : string → Z → string → string.
Variable labelRegExp : RegExp.t.
Variable payload : Payload.t.
Variable runId : Z.
Variable serverUrl : string.
Variable teamReviews : string.

#[local] Abbreviation backportBase :=
  (backportBase getBody getHead getTitle labelRegExp payload runId serverUrl
     teamReviews).
#[local] Abbreviation failureComment :=
  (failureComment getHead payload runId serverUrl).

(** X13 — When a request of the publisher (creation, reviewers, labels)
    is refused and the recovery goes through, the target counts as failed
    with that error even if its pull request had been created: nothing is
    recorded for it, the error is logged, and the failure comment carrying
    the error's message and the failure labels are put on the source pull
    request. *)
Theorem refused_publisher_request_fails_the_target github mergeCommitSha
    created base st m st' evs req error :
  backportBase github mergeCommitSha created base st = (inr m, st') →
  log st' = log st ++ evs →
  recoveryRequest req = false →
  EvRequest req (inl error) ∈ evs →
  m = created
  ∧ EvError error ∈ evs
  ∧ (∃ d, EvRequest (failureComment mergeCommitSha base error) (inr d) ∈ evs)
  ∧ (∃ d, EvRequest (failureLabelling payload base) (inr d) ∈ evs).
Proof.
  unfold backportBase. unfold_engine. unfold ensureError.
  rewrite bool_decide_eq_true_2 by apply labelsFor_nonempty.
  repeat next_call; intros Hrun; simplify_eq/=;
    rewrite <-?app_assoc; simpl;
    intros Hlog%app_inv_head Hreq Hin; subst evs;
    repeat (apply elem_of_cons in Hin as [Hin|Hin]; [simplify_eq/=|]);
    try (by apply elem_of_nil in Hin);
    (split_and!; [done|..]; try eexists;
     repeat first [apply list_elem_of_here|apply list_elem_of_further]).
Qed.

End TurnExtras.

Section RunExtras.

Variable getBody : string → string → string → Z → string.
Variable getHead : string → Z → string.
Variable getTitle : string → Z → string → string.
Variable labelRegExp : RegExp.t.
Variable payload : Payload.t.
Variable runId : Z.
Variable serverUrl : string.
Variable teamReviews : string.
Variable token : string.

#[local] Abbreviation backport :=
  (backport getBody getHead getTitle labelRegExp payload runId serverUrl
     teamReviews token).
#[local] Abbreviation backportEach :=
  (backportEach getBody getHead getTitle labelRegExp payload runId serverUrl
     teamReviews).
#[local] Abbreviation mergeCommitSha :=
  (default "" (PullRequest.merge_commit_sha (Payload.pull_request payload))).

(** The ways a run can go, with what it logs before the loop. *)
Lemma backport_cases st r st' :
  backport st = (r, st') →
  (st' = st ∧ ∃ error, r = inl error)
  ∨ (r = inr ∅
     ∧ getBaseBranches labelRegExp payload = inr []
     ∧ world st' = world st
     ∧ log st' = log st ++ [EvInfo "No backports required."])
  ∨ (∃ error,
       r = inl error
       ∧ log st'
         = log st
           ++ [EvRequest (GetRepo (owner payload) (repo payload))
                 (inl error)])
  ∨ (∃ data error,
       r = inl error ∧ log st' = log st ++ announcement payload data)
  ∨ (∃ data cloneUrl passed failed rest error,
       setupCommands cloneUrl = passed ++ failed :: rest
       ∧ r = inl error
       ∧ log st'
         = log st
           ++ announcement payload data
           ++ map setupEvent passed
           ++ [EvExec "git" failed None (Some error)])
  ∨ (∃ baseBranches github data cloneUrl st1,
       getBaseBranches labelRegExp payload = inr baseBranches
       ∧ baseBranches ≠ []
       ∧ log st1
         = log st
           ++ announcement payload data
           ++ map setupEvent (setupCommands cloneUrl)
       ∧ backportEach github mergeCommitSha baseBranches ∅ st1 = (r, st')).
Proof.
  unfold backport.
  destruct (negb _ || negb _) eqn:Hsecurity.
  { intros [= <- <-]. left. eauto. }
  rewrite bind_run. unfold liftResult at 1.
  destruct (getBaseBranches labelRegExp payload) as [error|baseBranches]
    eqn:Hroute.
  { intros [= <- <-]. left. eauto. }
  clear Hsecurity. case_bool_decide as Hlen.
  { destruct baseBranches; [|simpl in Hlen; lia].
    intros [= <- <-]. right. left. done. }
  assert (baseBranches ≠ []) as Hne by (by intros ->).
  rewrite bind_run. unfold liftResult at 1.
  destruct (getOctokit token) as [error|github].
  { intros [= <- <-]. left. eauto. }
  unfold warnIfSquashIsNotTheOnlyAllowedMergeMethod.
  unfold bind, ret, throw, info, warning, emit, liftResult, exec, request.
  simpl.
  next_call.
  { intros [= <- <-]. right. right. left. eauto. }
  unfold announcement, setupCommands.
  destruct (Data.allow_merge_commit data || Data.allow_rebase_merge data)
    eqn:Hflags; simpl;
    (destruct (urlWithCredentials _ _ _) as [error|cloneUrl]; simpl;
     [intros [= <- <-]; do 3 right; left; exists data, error;
      rewrite Hflags, <-?app_assoc; done|]);
    repeat next_call;
    try (intros [= <- <-]; do 4 right; left;
         first [ by eexists data, cloneUrl, [], _, _, _;
                    rewrite Hflags, <-?app_assoc
               | by eexists data, cloneUrl, [_], _, _, _;
                    rewrite Hflags, <-?app_assoc
               | by eexists data, cloneUrl, [_; _], _, _, _;
                    rewrite Hflags, <-?app_assoc ]);
    (intros Hloop; do 5 right;
     eexists baseBranches, github, data, cloneUrl, _;
     split_and!; [done|done| |exact Hloop];
     simpl; rewrite Hflags, <-?app_assoc; reflexivity).
Qed.

(** Every event of a run satisfies [Q], when the events of the prelude,
    of the attempts and of the recoveries for routed base branches do. *)
Lemma backport_invariant (Q : Event → Prop) st r st' evs :
  (∀ sha a base body github head labels mb tr title st0,
     ∃ evs0,
       log (backportOnce a base body sha github head labels mb
              (owner payload) (repo payload) tr title st0).2
       = log st0 ++ evs0
       ∧ Forall Q evs0) →
  (∀ name, Q (EvStartGroup name)) →
  Q EvEndGroup →
  (∀ error, Q (EvError error)) →
  (∀ msg, Q (EvInfo msg)) →
  (∀ msg, Q (EvWarning msg)) →
  (∀ o, Q (EvRequest (GetRepo (owner payload) (repo payload)) o)) →
  (∀ cloneUrl args o, args ∈ setupCommands cloneUrl →
                      Q (EvExec "git" args None o)) →
  (∀ sha base error o,
     base ∈ routed labelRegExp payload →
     Q (EvRequest
          (failureComment getHead payload runId serverUrl sha base error) o)) →
  (∀ base o,
     base ∈ routed labelRegExp payload →
     Q (EvRequest (failureLabelling payload base) o)) →
  backport st = (r, st') →
  log st' = log st ++ evs →
  Forall Q evs.
Proof.
  intros Qattempt Qstart Qend Qerror Qinfo Qwarning Qrepo Qsetup Qcomment
    Qlabels Hrun Hlog.
  assert (∀ data, Forall Q (announcement payload data)) as Hannounce.
  { intros data. unfold announcement.
    destruct (_ || _); by repeat constructor. }
  assert (∀ url commands,
            commands ⊆ setupCommands url →
            Forall Q (map setupEvent commands)) as Hsetup.
  { intros url commands Hsub. apply Forall_forall.
    intros event (args & -> & Hin)%list_elem_of_fmap.
    apply (Qsetup url). by apply Hsub. }
  destruct (backport_cases st r st' Hrun)
    as [[-> _]
       |[(_ & _ & _ & Hlog')
        |[(error & _ & Hlog')
         |[(data & error & _ & Hlog')
          |[(data & url & passed & failed & rest & error & Hcmds & _ & Hlog')
           |(baseBranches & github & data & url & st1 & Hroute & _ & Hlog1
             & Hloop)]]]]].
  - rewrite <-(app_nil_r (log st)) in Hlog at 1.
    apply app_inv_head in Hlog. by subst evs.
  - rewrite Hlog in Hlog'. apply app_inv_head in Hlog'. subst evs.
    by repeat constructor.
  - rewrite Hlog in Hlog'. apply app_inv_head in Hlog'. subst evs.
    by repeat constructor.
  - rewrite Hlog in Hlog'. apply app_inv_head in Hlog'. by subst evs.
  - rewrite Hlog in Hlog'. apply app_inv_head in Hlog'. subst evs.
    rewrite !Forall_app. split_and!; [done| |].
    + apply (Hsetup url). rewrite Hcmds. set_solver.
    + constructor; [|constructor]. apply (Qsetup url). rewrite Hcmds.
      set_solver.
  - destruct (backportEach_invariant getBody getHead getTitle labelRegExp
                payload runId serverUrl teamReviews Q Qattempt Qstart Qend
                Qerror github mergeCommitSha baseBranches ∅ st1)
      as (loopEvents & Hlog2 & HQ).
    { intros base error o Hin. apply Qcomment. unfold routed.
      by rewrite Hroute. }
    { intros base o Hin. apply Qlabels. unfold routed. by rewrite Hroute. }
    rewrite Hloop in Hlog2. simpl in Hlog2.
    rewrite Hlog1, Hlog, <-?app_assoc in Hlog2.
    apply app_inv_head in Hlog2. subst evs.
    rewrite !Forall_app. split_and!; [done| |done].
    by apply (Hsetup url).
Qed.

(** The loop logs none of the events of the prelude, and no clone. *)
Lemma loop_events_are_loop_events github baseBranches st1 r st' :
  backportEach github mergeCommitSha baseBranches ∅ st1 = (r, st') →
  ∃ evs,
    log st' = log st1 ++ evs
    ∧ Forall (λ event, preLoopOnly event = false ∧ isClone event = false) evs.
Proof.
  intros Hloop.
  destruct (backportEach_invariant getBody getHead getTitle labelRegExp
              payload runId serverUrl teamReviews
              (λ event, preLoopOnly event = false ∧ isClone event = false)
              (λ sha a base body gh head labels mb tr title st0,
                 attempt_events_are_loop_events sha a base body gh head
                   labels mb (owner payload) (repo payload) tr title st0)
              (λ _, conj eq_refl eq_refl) (conj eq_refl eq_refl)
              (λ _, conj eq_refl eq_refl)
              github mergeCommitSha baseBranches ∅ st1)
    as (evs & Hlog & HQ); [done..|].
  rewrite Hloop in Hlog. eauto.
Qed.

Lemma elem_of_announcement event data :
  event ∈ announcement payload data →
  event = EvRequest (GetRepo (owner payload) (repo payload)) (inr data)
  ∨ (event = EvWarning squashWarning
     ∧ Data.allow_merge_commit data || Data.allow_rebase_merge data = true)
  ∨ ∃ msg, event = EvInfo msg.
Proof.
  unfold announcement.
  destruct (Data.allow_merge_commit data || Data.allow_rebase_merge data);
    simpl; intros Hin;
    repeat (apply elem_of_cons in Hin as [->|Hin]; [eauto|]);
    by apply elem_of_nil in Hin.
Qed.

Lemma announcement_quiet data :
  Forall (λ event, isGroupEvent event = false ∧ isClone event = false
                   ∧ isCommand event = false)
    (announcement payload data).
Proof.
  unfold announcement. destruct (_ || _); by repeat constructor.
Qed.

Lemma elem_of_setup event commands :
  event ∈ map setupEvent commands →
  ∃ args, event = EvExec "git" args None None ∧ args ∈ commands.
Proof. intros (args & -> & Hin)%list_elem_of_fmap. eauto. Qed.

(** One case analysis for the proofs below: the events of a run are
    those of a prelude that ended the run, or a full prelude followed by the
    events of the loop. *)
Lemma backport_events st r st' evs :
  backport st = (r, st') →
  log st' = log st ++ evs →
  (evs = [] ∧ ∃ error, r = inl error)
  ∨ (evs = [EvInfo "No backports required."] ∧ r = inr ∅
     ∧ getBaseBranches labelRegExp payload = inr [])
  ∨ (∃ error,
       r = inl error
       ∧ evs = [EvRequest (GetRepo (owner payload) (repo payload))
                  (inl error)])
  ∨ (∃ data error, r = inl error ∧ evs = announcement payload data)
  ∨ (∃ data cloneUrl passed failed rest error,
       setupCommands cloneUrl = passed ++ failed :: rest
       ∧ r = inl error
       ∧ evs = announcement payload data
               ++ map setupEvent passed
               ++ [EvExec "git" failed None (Some error)])
  ∨ (∃ baseBranches github data cloneUrl st1 loopEvents,
       getBaseBranches labelRegExp payload = inr baseBranches
       ∧ baseBranches ≠ []
       ∧ backportEach github mergeCommitSha baseBranches ∅ st1 = (r, st')
       ∧ log st' = log st1 ++ loopEvents
       ∧ evs = announcement payload data
               ++ map setupEvent (setupCommands cloneUrl)
               ++ loopEvents
       ∧ Forall (λ event, preLoopOnly event = false ∧ isClone event = false)
           loopEvents).
Proof.
  intros Hrun Hlog.
  destruct (backport_cases st r st' Hrun)
    as [[-> ?]
       |[(? & ? & _ & Hlog')
        |[(error & ? & Hlog')
         |[(data & error & ? & Hlog')
          |[(data & url & passed & failed & rest & error & Hcmds & ? & Hlog')
           |(baseBranches & github & data & url & st1 & Hroute & Hne & Hlog1
             & Hloop)]]]]].
  - left. rewrite <-(app_nil_r (log st)) in Hlog at 1.
    apply app_inv_head in Hlog. by subst evs.
  - right. left. rewrite Hlog in Hlog'. by apply app_inv_head in Hlog'.
  - do 2 right. left. rewrite Hlog in Hlog'. apply app_inv_head in Hlog'.
    eauto.
  - do 3 right. left. rewrite Hlog in Hlog'. apply app_inv_head in Hlog'.
    eauto.
  - do 4 right. left. rewrite Hlog in Hlog'. apply app_inv_head in Hlog'.
    by exists data, url, passed, failed, rest, error.
  - do 5 right.
    destruct (loop_events_are_loop_events github baseBranches st1 r st' Hloop)
      as (loopEvents & Hlog2 & HQ).
    exists baseBranches, github, data, url, st1, loopEvents.
    split_and!; [done..| |done].
    rewrite Hlog2, Hlog1, <-?app_assoc in Hlog.
    by apply app_inv_head in Hlog.
Qed.

(** X6 — When the request for the repository settings is refused, the
    run ends with that error and has done nothing else: no clone, no
    target, no result object.  The advice on merge methods is not optional
    for the run. *)
Theorem refused_settings_request_ends_the_run st r st' evs o rp error :
  backport st = (r, st') →
  log st' = log st ++ evs →
  EvRequest (GetRepo o rp) (inl error) ∈ evs →
  r = inl error
  ∧ evs = [EvRequest (GetRepo (owner payload) (repo payload)) (inl error)].
Proof.
  intros Hrun Hlog Hin.
  destruct (backport_events st r st' evs Hrun Hlog)
    as [[-> _]
       |[(-> & _)
        |[(error' & -> & ->)
         |[(data & error' & _ & ->)
          |[(data & url & passed & failed & rest & error' & _ & _ & ->)
           |(bs & github & data & url & st1 & loopEvents & _ & _ & _ & _
             & -> & Hloop)]]]]].
  - by apply elem_of_nil in Hin.
  - apply elem_of_cons in Hin as [?|Hin]; [done|by apply elem_of_nil in Hin].
  - apply elem_of_cons in Hin as [[= -> -> ->]|Hin]; [done|].
    by apply elem_of_nil in Hin.
  - apply elem_of_announcement in Hin as [?|[[? _]|[? ?]]]; done.
  - rewrite !elem_of_app in Hin. destruct Hin as [Hin|[Hin|Hin]].
    + apply elem_of_announcement in Hin as [?|[[? _]|[? ?]]]; done.
    + by apply elem_of_setup in Hin as (? & ? & _).
    + apply elem_of_cons in Hin as [?|Hin]; [done|].
      by apply elem_of_nil in Hin.
  - rewrite !elem_of_app in Hin. destruct Hin as [Hin|[Hin|Hin]].
    + apply elem_of_announcement in Hin as [?|[[? _]|[? ?]]]; done.
    + by apply elem_of_setup in Hin as (? & ? & _).
    + rewrite Forall_forall in Hloop. by destruct (Hloop _ Hin).
Qed.

(** X7 — A run logs the warning on merge methods exactly when the
    repository settings came back and allow merge commits or rebase
    merging; the warning is the fixed four-line text. *)
Theorem warning_follows_the_settings st r st' evs :
  backport st = (r, st') →
  log st' = log st ++ evs →
  (∀ msg,
     EvWarning msg ∈ evs →
     msg = squashWarning
     ∧ ∃ data,
         EvRequest (GetRepo (owner payload) (repo payload)) (inr data) ∈ evs
         ∧ Data.allow_merge_commit data || Data.allow_rebase_merge data
           = true)
  ∧ (∀ o rp data,
       EvRequest (GetRepo o rp) (inr data) ∈ evs →
       Data.allow_merge_commit data || Data.allow_rebase_merge data = true →
       EvWarning squashWarning ∈ evs).
Proof.
  intros Hrun Hlog.
  assert (∀ data msg,
            EvWarning msg ∈ announcement payload data →
            msg = squashWarning
            ∧ Data.allow_merge_commit data || Data.allow_rebase_merge data
              = true) as Hwarn.
  { intros data msg [?|[[[= ->] ?]|[? ?]]]%elem_of_announcement; done. }
  assert (∀ data, EvRequest (GetRepo (owner payload) (repo payload))
                    (inr data) ∈ announcement payload data) as Hrepo.
  { intros data. unfold announcement. by left. }
  assert (∀ data o rp data',
            EvRequest (GetRepo o rp) (inr data') ∈ announcement payload data →
            Data.allow_merge_commit data' || Data.allow_rebase_merge data'
            = true →
            EvWarning squashWarning ∈ announcement payload data) as Hflag.
  { intros data o rp data' [[= -> -> ->]|[[? _]|[? ?]]]%elem_of_announcement
      Hflags; try done.
    unfold announcement. rewrite Hflags. right. by left. }
  destruct (backport_events st r st' evs Hrun Hlog)
    as [[-> _]
       |[(-> & _)
        |[(error' & _ & ->)
         |[(data & error' & _ & ->)
          |[(data & url & passed & failed & rest & error' & _ & _ & ->)
           |(bs & github & data & url & st1 & loopEvents & _ & _ & _ & _
             & -> & Hloop)]]]]].
  - split; intros; by match goal with H : _ ∈ [] |- _ =>
                        apply elem_of_nil in H end.
  - split.
    + intros msg Hin. apply elem_of_cons in Hin as [?|Hin]; [done|].
      by apply elem_of_nil in Hin.
    + intros o rp data Hin. apply elem_of_cons in Hin as [?|Hin]; [done|].
      by apply elem_of_nil in Hin.
  - split.
    + intros msg Hin. apply elem_of_cons in Hin as [?|Hin]; [done|].
      by apply elem_of_nil in Hin.
    + intros o rp data Hin. apply elem_of_cons in Hin as [?|Hin]; [done|].
      by apply elem_of_nil in Hin.
  - split.
    + intros msg Hin. destruct (Hwarn _ _ Hin). eauto.
    + intros o rp data'. apply Hflag.
  - split.
    + intros msg Hin. rewrite !elem_of_app in Hin.
      destruct Hin as [Hin|[Hin|Hin]].
      * destruct (Hwarn _ _ Hin). split; [done|]. exists data.
        rewrite !elem_of_app. eauto.
      * by apply elem_of_setup in Hin as (? & ? & _).
      * apply elem_of_cons in Hin as [?|Hin]; [done|].
        by apply elem_of_nil in Hin.
    + intros o rp data' Hin Hflags. rewrite !elem_of_app in Hin |- *.
      destruct Hin as [Hin|[Hin|Hin]].
      * left. by eapply Hflag.
      * by apply elem_of_setup in Hin as (? & ? & _).
      * apply elem_of_cons in Hin as [?|Hin]; [done|].
        by apply elem_of_nil in Hin.
  - rewrite Forall_forall in Hloop. split.
    + intros msg Hin. rewrite !elem_of_app in Hin.
      destruct Hin as [Hin|[Hin|Hin]].
      * destruct (Hwarn _ _ Hin). split; [done|]. exists data.
        rewrite !elem_of_app. eauto.
      * by apply elem_of_setup in Hin as (? & ? & _).
      * by destruct (Hloop _ Hin).
    + intros o rp data' Hin Hflags. rewrite !elem_of_app in Hin |- *.
      destruct Hin as [Hin|[Hin|Hin]].
      * left. by eapply Hflag.
      * by apply elem_of_setup in Hin as (? & ? & _).
      * by destruct (Hloop _ Hin).
Qed.

(** X8 — When the pull request is merged and no label routes it
    anywhere, the run returns the empty result object after one log line:
    it builds no client, sends no request and runs no command. *)
Theorem no_target_no_call st :
  PullRequest.merged (Payload.pull_request payload) = Some true →
  truthy (PullRequest.merge_commit_sha (Payload.pull_request payload))
  = true →
  getBaseBranches labelRegExp payload = inr [] →
  backport st
  = (inr ∅,
     {| world := world st;
        log := log st ++ [EvInfo "No backports required."] |}).
Proof.
  intros Hmerged Hsha Hroute. unfold backport.
  rewrite Hmerged, Hsha, bool_decide_eq_true_2 by done.
  simpl. rewrite bind_run. by rewrite Hroute.
Qed.

Lemma filter_clones_nil (events : list Event) :
  Forall (λ event, isClone event = false) events →
  filter (λ event, isClone event = true) events = [].
Proof.
  induction 1 as [|event events Hevent _ IH]; [done|].
  rewrite filter_cons_False by congruence. done.
Qed.

(** X9 — A run clones the repository at most once, and it opens the
    group of a target only after the repository settings came back and the
    clone and the two git configurations went through; from there on it
    logs no clone, no command outside a directory, no settings request and
    no warning. *)
Theorem the_clone_comes_once_and_first st r st' evs :
  backport st = (r, st') →
  log st' = log st ++ evs →
  (length (filter (λ event, isClone event = true) evs) ≤ 1)%nat
  ∧ ∀ name,
      EvStartGroup name ∈ evs →
      ∃ data cloneUrl rest,
        evs = announcement payload data
              ++ map setupEvent (setupCommands cloneUrl)
              ++ rest
        ∧ Forall (λ event, preLoopOnly event = false ∧ isClone event = false)
            rest.
Proof.
  intros Hrun Hlog.
  assert (∀ data, filter (λ event, isClone event = true)
                    (announcement payload data) = []) as Hannounce.
  { intros data. apply filter_clones_nil.
    eapply Forall_impl; [apply announcement_quiet|]. by intros ? (_ & ? & _). }
  assert (∀ data name, EvStartGroup name ∈ announcement payload data → False)
    as Hnogroup.
  { intros data name [?|[[? _]|[? ?]]]%elem_of_announcement; done. }
  destruct (backport_events st r st' evs Hrun Hlog)
    as [[-> _]
       |[(-> & _)
        |[(error' & _ & ->)
         |[(data & error' & _ & ->)
          |[(data & url & passed & failed & rest & error' & Hcmds & _ & ->)
           |(bs & github & data & url & st1 & loopEvents & _ & _ & _ & _
             & -> & Hloop)]]]]].
  - split; [simpl; lia|]. intros name Hin. by apply elem_of_nil in Hin.
  - split; [simpl; lia|]. intros name Hin.
    apply elem_of_cons in Hin as [?|Hin]; [done|by apply elem_of_nil in Hin].
  - split; [simpl; lia|]. intros name Hin.
    apply elem_of_cons in Hin as [?|Hin]; [done|by apply elem_of_nil in Hin].
  - split; [rewrite Hannounce; simpl; lia|]. intros name Hin.
    by destruct (Hnogroup _ _ Hin).
  - split.
    + rewrite filter_app, Hannounce. simpl.
      unfold setupCommands in Hcmds.
      destruct passed as [|c1 [|c2 [|c3 passed]]]; simplify_eq/=;
        [done..|].
      by destruct passed.
    + intros name Hin. rewrite !elem_of_app in Hin.
      destruct Hin as [Hin|[Hin|Hin]].
      * by destruct (Hnogroup _ _ Hin).
      * by apply elem_of_setup in Hin as (? & ? & _).
      * apply elem_of_cons in Hin as [?|Hin]; [done|].
        by apply elem_of_nil in Hin.
  - split.
    + rewrite !filter_app, Hannounce.
      rewrite (filter_clones_nil loopEvents).
      * simpl. lia.
      * eapply Forall_impl; [exact Hloop|]. by intros ? [_ ?].
    + intros name _. by exists data, url, loopEvents.
Qed.

Lemma targetCommand_runCommand dir event :
  targetCommand dir event → runCommand dir event.
Proof.
  destruct event as [| | | | |commandLine args [cwd|] outcome|]; try done.
  by intros (_ & ? & _).
Qed.

(** X10 — Every command of a run is a git command.  Outside any
    directory the run executes the clone and the two global
    configurations and nothing else; every other command is executed in the
    directory named after the repository, and is a switch, a cherry-pick or
    a push. *)
Theorem commands_of_a_run st r st' evs :
  backport st = (r, st') →
  log st' = log st ++ evs →
  Forall (runCommand (repo payload)) evs.
Proof.
  intros Hrun Hlog.
  eapply (backport_invariant (runCommand (repo payload))); try done.
  - intros sha a base body github head labels mb tr title st0.
    destruct (attempt_events_are_target_commands sha a base body github head
                labels mb (owner payload) (repo payload) tr title st0)
      as (evs0 & Hlog0 & Hall).
    exists evs0. split; [done|].
    eapply Forall_impl; [exact Hall|]. apply targetCommand_runCommand.
  - intros cloneUrl args o Hin. simpl. eauto.
Qed.

(** X14 — Every failure comment and every set of failure labels of a
    run goes to the source pull request, in its repository, never to a
    backport pull request; the failure labels are [backports],
    [release-blocker] and [failed-backport-to-<base>] for a routed base
    branch. *)
Theorem recovery_goes_to_the_source_pull_request st r st' evs :
  backport st = (r, st') →
  log st' = log st ++ evs →
  Forall (addressed payload (routed labelRegExp payload)) evs.
Proof.
  intros Hrun Hlog.
  eapply (backport_invariant (addressed payload (routed labelRegExp payload)));
    try done.
  - intros sha a base body github head labels mb tr title st0.
    apply attempt_events_are_attempt_events; [|done].
    by intros [| | | | | |[] ?].
  - intros base o Hin. simpl. split_and!; [done..|]. by exists base.
Qed.

Lemma balanced_quiet opened (quiet rest : list Event) :
  Forall (λ event, isGroupEvent event = false) quiet →
  balanced opened (quiet ++ rest) = balanced opened rest.
Proof.
  induction 1 as [|event quiet Hevent _ IH]; [done|].
  simpl. by destruct event.
Qed.

Lemma attempt_quiet attempt error :
  failedAttempt attempt error →
  Forall (λ event, isGroupEvent event = false) attempt.
Proof.
  intros [Hall _]. eapply Forall_impl; [exact Hall|]. by intros [].
Qed.

Lemma balanced_outcome sha base o rest :
  wellFormed o →
  balanced false
    (outcomeEvents getBody getHead getTitle labelRegExp payload runId
       serverUrl teamReviews sha base o ++ rest)
  = balanced false rest.
Proof.
  destruct o as [d1 d2 d3|attempt error d4 d5]; simpl; [done|].
  intros Hquiet%attempt_quiet.
  rewrite <-app_assoc, balanced_quiet by done. done.
Qed.

Lemma balanced_all sha baseBranches os rest :
  Forall wellFormed os →
  balanced false
    (allEvents getBody getHead getTitle labelRegExp payload runId serverUrl
       teamReviews sha baseBranches os ++ rest)
  = balanced false rest.
Proof.
  intros Hos. revert baseBranches.
  induction Hos as [|o os Ho _ IH]; intros [|base bases]; simpl; try done.
  rewrite <-app_assoc, balanced_outcome by done. apply IH.
Qed.

Lemma balanced_aborted sha base attempt attemptError commented error :
  failedAttempt attempt attemptError →
  balanced false
    (abortedEvents getHead payload runId serverUrl sha base attempt
       attemptError commented error)
  = true.
Proof.
  intros Hquiet%attempt_quiet. unfold abortedEvents. simpl.
  rewrite balanced_quiet by done. by destruct commented.
Qed.

(** X16 — In the log of a run the groups are never nested and never
    left open: every target's group is closed before the next one opens,
    and the last one is closed even when the run ends with an error. *)
Theorem groups_are_closed_and_never_nested st r st' evs :
  backport st = (r, st') →
  log st' = log st ++ evs →
  balanced false evs = true.
Proof.
  intros Hrun Hlog.
  assert (∀ data rest, balanced false (announcement payload data ++ rest)
                       = balanced false rest) as Hannounce.
  { intros data rest. apply balanced_quiet.
    eapply Forall_impl; [apply announcement_quiet|]. by intros ? (? & _). }
  assert (∀ commands rest, balanced false (map setupEvent commands ++ rest)
                           = balanced false rest) as Hsetup.
  { intros commands rest. apply balanced_quiet.
    apply Forall_forall. by intros ? (? & -> & _)%elem_of_setup. }
  destruct (backport_events st r st' evs Hrun Hlog)
    as [[-> _]
       |[(-> & _)
        |[(error' & _ & ->)
         |[(data & error' & _ & ->)
          |[(data & url & passed & failed & rest & error' & _ & _ & ->)
           |(bs & github & data & url & st1 & loopEvents & _ & _ & Hloop
             & Hlog2 & -> & _)]]]]]; try done.
  - rewrite <-(app_nil_r (announcement payload data)). by rewrite Hannounce.
  - by rewrite Hannounce, Hsetup.
  - rewrite Hannounce, Hsetup.
    pose proof (backportEach_run getBody getHead getTitle labelRegExp payload
                  runId serverUrl teamReviews github mergeCommitSha bs ∅ st1)
      as Hspec.
    rewrite Hloop in Hspec. destruct r as [error|m].
    + destruct Hspec as (processed & base & rest & os & attempt & attemptError
                         & commented & _ & _ & Hos & Hfailed & Hlog3).
      rewrite Hlog2 in Hlog3. apply app_inv_head in Hlog3. subst loopEvents.
      rewrite balanced_all by done. by apply balanced_aborted.
    + destruct Hspec as (os & _ & Hos & _ & Hlog3).
      rewrite Hlog2 in Hlog3. apply app_inv_head in Hlog3. subst loopEvents.
      rewrite <-(app_nil_r (allEvents _ _ _ _ _ _ _ _ _ _ _)).
      by rewrite balanced_all.
Qed.

End RunExtras.

End EngineExtras.

(** ** Further properties: the failure comment *)

Section CommentExtras.

Implicit Types piece s t : string.

Lemma contains_app_r piece s t : contains piece t → contains piece (s +:+ t).
Proof.
  intros (k & pre & post & -> & _).
  exists (String.length (s +:+ pre)), (s +:+ pre), post.
  split; [by rewrite app_assoc'|done].
Qed.

Lemma beginsWith_same s piece t :
  beginsWith piece t → beginsWith (s +:+ piece) (s +:+ t).
Proof. intros [rest ->]. exists rest. by rewrite app_assoc'. Qed.

Lemma beginsWith_here piece t : beginsWith piece (piece +:+ t).
Proof. by exists t. Qed.

(** [piece] straddles the end of [s]: its first part [p1] ends [s] and the
    rest begins what follows. *)
Lemma contains_at s p1 piece t :
  JS.drop (String.length s - String.length p1) s = p1 →
  beginsWith piece t →
  contains (p1 +:+ piece) (s +:+ t).
Proof.
  intros Hend [rest ->].
  exists (String.length (JS.take (String.length s - String.length p1) s)),
    (JS.take (String.length s - String.length p1) s), rest.
  split; [|done].
  rewrite <-(take_drop s (String.length s - String.length p1)) at 1.
  rewrite Hend. by rewrite !app_assoc'.
Qed.

(** X15 — The failure comment names its target in every command it
    gives: the base branch and the pull-request number for [sg backport],
    the worktree of the base branch, the head branch to create and to push,
    and the merge commit to cherry-pick; it begins with the base branch and
    the run's address, and it quotes the error message. *)
Theorem failure_comment_names_its_target base commitSha errorMessage head
    prNumber runUrl :
  let body :=
    getFailedBackportCommentBody base commitSha errorMessage head prNumber
      runUrl in
  beginsWith ("The backport to `" +:+ base +:+ "` failed at " +:+ runUrl) body
  ∧ contains errorMessage body
  ∧ contains ("sg backport -r " +:+ base +:+ " -p " +:+ pretty prNumber) body
  ∧ contains
      ("git worktree add " +:+ (".worktrees/backport-" +:+ base) +:+ " "
       +:+ base) body
  ∧ contains ("git switch --create " +:+ head) body
  ∧ contains ("git cherry-pick -x --mainline 1 " +:+ commitSha) body
  ∧ contains ("git push --set-upstream origin " +:+ head) body.
Proof.
  unfold getFailedBackportCommentBody. cbv zeta. split_and!.
  - do 3 apply beginsWith_same. apply beginsWith_here.
  - do 4 apply contains_app_r.
    match goal with
    | |- contains _ (?s +:+ _) => apply (contains_at s "" errorMessage)
    end; [done|apply beginsWith_here].
  - do 6 apply contains_app_r.
    match goal with
    | |- contains _ (?s +:+ _) => apply (contains_at s "sg backport -r ")
    end; [done|]. do 2 apply beginsWith_same. apply beginsWith_here.
  - do 10 apply contains_app_r.
    match goal with
    | |- contains _ (?s +:+ _) => apply (contains_at s "git worktree add ")
    end; [done|]. do 2 apply beginsWith_same. apply beginsWith_here.
  - do 16 apply contains_app_r.
    match goal with
    | |- contains _ (?s +:+ _) => apply (contains_at s "git switch --create ")
    end; [done|apply beginsWith_here].
  - do 18 apply contains_app_r.
    match goal with
    | |- contains _ (?s +:+ _) =>
        apply (contains_at s "git cherry-pick -x --mainline 1 ")
    end; [done|apply beginsWith_here].
  - do 20 apply contains_app_r.
    match goal with
    | |- contains _ (?s +:+ _) =>
        apply (contains_at s "git push --set-upstream origin ")
    end; [done|apply beginsWith_here].
Qed.

End CommentExtras.

(** ** The labels of the backport pull requests, and the result object *)

Section LabelsAndResult.

Context `{Runtime}.

Variable getBody : string → string → string → Z → string.
Variable getHead : string → Z → string.
Variable getTitle : string → Z → string → string.
Variable labelRegExp : RegExp.t.
Variable payload : Payload.t.
Variable runId : Z.
Variable serverUrl : string.
Variable teamReviews : string.
Variable token : string.

#[local] Abbreviation labelsFor := (labelsFor labelRegExp payload).
#[local] Abbreviation bodyFor := (bodyFor getBody payload).
#[local] Abbreviation headFor := (headFor getHead payload).
#[local] Abbreviation titleFor := (titleFor getTitle payload).
#[local] Abbreviation backportBase :=
  (backportBase getBody getHead getTitle labelRegExp payload runId serverUrl
     teamReviews).
#[local] Abbreviation backportEach :=
  (backportEach getBody getHead getTitle labelRegExp payload runId serverUrl
     teamReviews).
#[local] Abbreviation backport :=
  (backport getBody getHead getTitle labelRegExp payload runId serverUrl
     teamReviews token).
#[local] Abbreviation outcomeEvents :=
  (outcomeEvents getBody getHead getTitle labelRegExp payload runId serverUrl
     teamReviews).
#[local] Abbreviation allEvents :=
  (allEvents getBody getHead getTitle labelRegExp payload runId serverUrl
     teamReviews).
#[local] Abbreviation mergeCommitSha :=
  (default "" (PullRequest.merge_commit_sha (Payload.pull_request payload))).
#[local] Abbreviation reviewersRequest number :=
  (RequestReviewers (owner payload) number (repo payload)
     (reviewersOf (author payload) (merged_by payload))
     (teamReviewersOf teamReviews)).
#[local] Abbreviation labellingRequest base number :=
  (SetLabels number (labelsFor base) (owner payload) (repo payload)).

(** *** What follows the creation of a pull request *)

Ltac find_event :=
  solve [repeat first [apply list_elem_of_here|apply list_elem_of_further]].

(** In one turn of the loop an accepted creation is for the turn's
    target, and the pull request then has its reviewers request refused or
    its labelling request sent. *)
Lemma backportBase_labelling github sha created base st r st' evs base' body'
    head' o' r' title' d1 :
  backportBase github sha created base st = (r, st') →
  log st' = log st ++ evs →
  EvRequest (CreatePull base' body' head' o' r' title') (inr d1) ∈ evs →
  base' = base
  ∧ ((∃ error,
        EvRequest (reviewersRequest (Data.number d1)) (inl error) ∈ evs)
     ∨ ∃ outcome,
         EvRequest (labellingRequest base (Data.number d1)) outcome ∈ evs).
Proof.
  unfold backportBase. unfold_engine. unfold ensureError.
  rewrite bool_decide_eq_true_2 by apply labelsFor_nonempty.
  repeat next_call; intros Hrun; simplify_eq/=;
    rewrite <-?app_assoc; simpl;
    intros Hlog%app_inv_head Hin; subst evs;
    repeat (apply elem_of_cons in Hin as [Hin|Hin]; [simplify_eq/=|]);
    try (by apply elem_of_nil in Hin);
    (split; [done|]);
    first [left; eexists; find_event|right; eexists; find_event].
Qed.

Lemma backportBase_extends github sha created base st :
  ∃ evs, log (backportBase github sha created base st).2 = log st ++ evs.
Proof.
  pose proof (backportBase_run getBody getHead getTitle labelRegExp payload
                runId serverUrl teamReviews github sha created base st)
    as Hturn.
  destruct (backportBase github sha created base st) as [[error|m] st1];
    simpl.
  - destruct Hturn as (? & ? & ? & _ & Hlog). eauto.
  - destruct Hturn as (? & _ & _ & Hlog). eauto.
Qed.

Lemma backportEach_extends github sha baseBranches created st :
  ∃ evs,
    log (backportEach github sha baseBranches created st).2 = log st ++ evs.
Proof.
  pose proof (backportEach_run getBody getHead getTitle labelRegExp payload
                runId serverUrl teamReviews github sha baseBranches created
                st) as Hloop.
  destruct (backportEach github sha baseBranches created st)
    as [[error|m] st1]; simpl.
  - destruct Hloop as (? & ? & ? & ? & ? & ? & ? & _ & _ & _ & _ & Hlog).
    eauto.
  - destruct Hloop as (? & _ & _ & _ & Hlog). eauto.
Qed.

(** The same over the loop: the target is one of the list. *)
Lemma backportEach_labelling github sha baseBranches created st r st' evs
    base' body' head' o' r' title' d1 :
  backportEach github sha baseBranches created st = (r, st') →
  log st' = log st ++ evs →
  EvRequest (CreatePull base' body' head' o' r' title') (inr d1) ∈ evs →
  base' ∈ baseBranches
  ∧ ((∃ error,
        EvRequest (reviewersRequest (Data.number d1)) (inl error) ∈ evs)
     ∨ ∃ outcome,
         EvRequest (labellingRequest base' (Data.number d1)) outcome ∈ evs).
Proof.
  revert created st evs.
  induction baseBranches as [|base rest IH]; intros created st evs; simpl.
  - intros [= <- <-] Hlog Hin.
    rewrite <-(app_nil_r (log st)) in Hlog at 1.
    apply app_inv_head in Hlog. subst evs. by apply elem_of_nil in Hin.
  - rewrite bind_run.
    destruct (backportBase_extends github sha created base st)
      as (evs1 & Hlog1).
    destruct (backportBase github sha created base st) as [[error|m] st1]
      eqn:Hturn; simpl in Hlog1.
    + intros [= <- <-] Hlog Hin.
      destruct (backportBase_labelling _ _ _ _ _ _ _ _ _ _ _ _ _ _ _
                  Hturn Hlog Hin) as [-> Hnext].
      split; [by left|done].
    + intros Hloop Hlog Hin.
      destruct (backportEach_extends github sha rest m st1) as (evs2 & Hlog2).
      rewrite Hloop in Hlog2. simpl in Hlog2.
      assert (evs = evs1 ++ evs2) as ->.
      { rewrite Hlog2, Hlog1, <-app_assoc in Hlog.
        by apply app_inv_head in Hlog. }
      apply elem_of_app in Hin as [Hin|Hin].
      * destruct (backportBase_labelling _ _ _ _ _ _ _ _ _ _ _ _ _ _ _
                    Hturn Hlog1 Hin) as [-> Hnext].
        split; [by left|].
        destruct Hnext as [[error Hnext]|[outcome Hnext]]; [left|right];
          eexists; apply elem_of_app; left; exact Hnext.
      * destruct (IH m st1 evs2 Hloop Hlog2 Hin) as [Hbase Hnext].
        split; [by right|].
        destruct Hnext as [[error Hnext]|[outcome Hnext]]; [left|right];
          eexists; apply elem_of_app; right; exact Hnext.
Qed.

(** *** Runs that return *)

(** A run that returns has an outcome for every routed base branch, and
    its result object is the one the outcomes record. *)
Lemma backport_returns st m st' evs :
  backport st = (inr m, st') →
  log st' = log st ++ evs →
  ∃ prelude os,
    Forall (λ event, preludeEvent event = true) prelude
    ∧ length os = length (routed labelRegExp payload)
    ∧ Forall wellFormed os
    ∧ m = recordAll ∅ (routed labelRegExp payload) os
    ∧ evs = prelude ++ allEvents mergeCommitSha (routed labelRegExp payload) os.
Proof.
  intros Hrun Hlog.
  destruct (backport_run getBody getHead getTitle labelRegExp payload runId
              serverUrl teamReviews token st (inr m) st' Hrun)
    as [(prelude & Hprelude & Hlog' & [[error ?]|[[= ->] Hroute]])
       |(baseBranches & github & prelude & st1 & Hroute & Hprelude & Hlog1
         & Hloop)];
    [done| |]; unfold routed; rewrite Hroute.
  - exists prelude, []. split_and!; [done..|].
    rewrite Hlog in Hlog'. apply app_inv_head in Hlog'.
    by rewrite app_nil_r.
  - pose proof (backportEach_run getBody getHead getTitle labelRegExp payload
                  runId serverUrl teamReviews github mergeCommitSha
                  baseBranches ∅ st1) as Hspec.
    rewrite Hloop in Hspec. destruct Hspec as (os & Hlen & Hos & -> & Hlog2).
    exists prelude, os. split_and!; [done..|].
    rewrite Hlog2, Hlog1, <-app_assoc in Hlog.
    by apply app_inv_head in Hlog.
Qed.

(** Outcomes without a failed call are publications. *)
Lemma quiet_outcomes_are_published sha baseBranches os :
  length os = length baseBranches →
  Forall wellFormed os →
  Forall (λ event, failure event = None) (allEvents sha baseBranches os) →
  Forall (λ o, ∃ d1 d2 d3, o = Backported d1 d2 d3) os.
Proof.
  intros Hlen Hos. revert baseBranches Hlen.
  induction Hos as [|o os Ho Hos IH]; intros [|base rest] Hlen; simpl in *;
    try lia; [by constructor|].
  intros [Hhead Htail]%Forall_app.
  constructor; [|apply (IH rest); [lia|done]].
  destruct o as [d1 d2 d3|attempt error d4 d5]; [eauto|].
  simpl in Ho, Hhead. destruct Ho as [_ (event & Hin & Hfail)].
  apply Forall_cons in Hhead as [_ Hhead].
  apply Forall_app in Hhead as [Hhead _].
  rewrite Forall_forall in Hhead. apply Hhead in Hin. congruence.
Qed.

Lemma published_events_found sha baseBranches os base :
  length os = length baseBranches →
  Forall (λ o, ∃ d1 d2 d3, o = Backported d1 d2 d3) os →
  base ∈ baseBranches →
  ∃ before d1 d2 d3 after,
    allEvents sha baseBranches os
    = before ++ outcomeEvents sha base (Backported d1 d2 d3) ++ after.
Proof.
  intros Hlen Hos. revert baseBranches Hlen.
  induction Hos as [|o os Ho Hos IH]; intros [|base0 rest] Hlen; simpl in *;
    try lia.
  { intros Hin. by apply elem_of_nil in Hin. }
  intros [->|Hin]%elem_of_cons.
  - destruct Ho as (d1 & d2 & d3 & ->).
    by exists [], d1, d2, d3, (allEvents sha rest os).
  - destruct (IH rest) as (before & d1 & d2 & d3 & after & Hevs);
      [lia|done|].
    exists (outcomeEvents sha base0 o ++ before), d1, d2, d3, after.
    by rewrite Hevs, <-app_assoc.
Qed.

Lemma published_events_hold_no_recovery sha baseBranches os :
  Forall (λ o, ∃ d1 d2 d3, o = Backported d1 d2 d3) os →
  Forall (λ event, recoveryEvent event = false)
    (allEvents sha baseBranches os).
Proof.
  intros Hos. revert baseBranches.
  induction Hos as [|o os Ho Hos IH]; intros [|base rest]; simpl;
    try by constructor.
  destruct Ho as (d1 & d2 & d3 & ->).
  apply Forall_app. split; [by repeat constructor|apply IH].
Qed.

Lemma preludeEvent_not_recoveryEvent event :
  preludeEvent event = true → recoveryEvent event = false.
Proof. by destruct event as [| | | | | |[] ?]. Qed.

(** The events of a publication, as members of a log that holds them. *)
Lemma published_requests sha base d1 d2 d3 (before after : list Event) :
  EvRequest
    (CreatePull base (bodyFor sha base) (headFor base) (owner payload)
       (repo payload) (titleFor base))
    (inr d1)
  ∈ before ++ outcomeEvents sha base (Backported d1 d2 d3) ++ after
  ∧ EvRequest (labellingRequest base (Data.number d1)) (inr d3)
    ∈ before ++ outcomeEvents sha base (Backported d1 d2 d3) ++ after.
Proof.
  split; apply elem_of_app; right; apply elem_of_app; left; simpl;
    find_event.
Qed.

(** C10 (amended) — The label list built for a target always holds
    [backports] and [backported-to-<base>], so it is never empty and the
    guard of the labelling request is always passed.  In every run, each
    pull request that is created is for a routed base branch, and it has
    its reviewers request refused or else the labelling request with the
    target's list sent for it; each pull request recorded in the result
    object has had that list put on it by an accepted request; and when the
    run returns and none of its calls failed, every routed base branch has
    its pull request created and labelled. *)
Theorem backport_labels_are_applied st r st' evs :
  backport st = (r, st') →
  log st' = log st ++ evs →
  (∀ base,
     "backports" ∈ labelsFor base
     ∧ "backported-to-" +:+ base ∈ labelsFor base
     ∧ (0 < length (labelsFor base))%nat)
  ∧ (∀ base body head o rp title d1,
       EvRequest (CreatePull base body head o rp title) (inr d1) ∈ evs →
       base ∈ routed labelRegExp payload
       ∧ ((∃ error,
             EvRequest (reviewersRequest (Data.number d1)) (inl error) ∈ evs)
          ∨ ∃ outcome,
              EvRequest (labellingRequest base (Data.number d1)) outcome
              ∈ evs))
  ∧ (∀ m base number,
       r = inr m →
       m !! base = Some number →
       ∃ d, EvRequest (labellingRequest base number) (inr d) ∈ evs)
  ∧ (∀ m base,
       r = inr m →
       Forall (λ event, failure event = None) evs →
       base ∈ routed labelRegExp payload →
       ∃ d1 d,
         EvRequest
           (CreatePull base (bodyFor mergeCommitSha base) (headFor base)
              (owner payload) (repo payload) (titleFor base))
           (inr d1)
         ∈ evs
         ∧ EvRequest (labellingRequest base (Data.number d1)) (inr d) ∈ evs).
Proof.
  intros Hrun Hlog. split_and!.
  - intros base. split_and!.
    + unfold labelsFor. apply elem_of_app. right. by left.
    + unfold labelsFor. apply elem_of_app. right. right. by left.
    + apply labelsFor_nonempty.
  - intros base body head o rp title d1 Hin.
    destruct (backport_run getBody getHead getTitle labelRegExp payload runId
                serverUrl teamReviews token st r st' Hrun)
      as [(prelude & Hprelude & Hlog' & _)
         |(baseBranches & github & prelude & st1 & Hroute & Hprelude & Hlog1
           & Hloop)].
    { rewrite Hlog in Hlog'. apply app_inv_head in Hlog'. subst evs.
      rewrite Forall_forall in Hprelude. by apply Hprelude in Hin. }
    destruct (backportEach_extends github mergeCommitSha baseBranches ∅ st1)
      as (loopEvents & Hlog2).
    rewrite Hloop in Hlog2. simpl in Hlog2.
    assert (evs = prelude ++ loopEvents) as ->.
    { rewrite Hlog2, Hlog1, <-app_assoc in Hlog.
      by apply app_inv_head in Hlog. }
    apply elem_of_app in Hin as [Hin|Hin].
    { rewrite Forall_forall in Hprelude. by apply Hprelude in Hin. }
    destruct (backportEach_labelling _ _ _ _ _ _ _ _ _ _ _ _ _ _ _
                Hloop Hlog2 Hin) as [Hbase Hnext].
    unfold routed. rewrite Hroute. split; [done|].
    destruct Hnext as [[error Hnext]|[outcome Hnext]]; [left|right];
      eexists; apply elem_of_app; right; exact Hnext.
  - intros m base number -> Hm.
    destruct (backport_returns st m st' evs Hrun Hlog)
      as (prelude & os & _ & Hlen & Hos & -> & ->).
    destruct (recordAll_accounted getBody getHead getTitle labelRegExp
                payload runId serverUrl teamReviews mergeCommitSha
                (routed labelRegExp payload) os ∅ Hlen Hos) as [Hkeys _].
    destruct (Hkeys base number Hm)
      as [Hempty|(_ & before & d1 & d2 & d3 & after & <- & ->)].
    { by rewrite lookup_empty in Hempty. }
    exists d3. apply elem_of_app. right.
    apply (published_requests mergeCommitSha base d1 d2 d3 before after).
  - intros m base -> Hquiet Hbase.
    destruct (backport_returns st m st' evs Hrun Hlog)
      as (prelude & os & _ & Hlen & Hos & _ & ->).
    apply Forall_app in Hquiet as [_ Hquiet].
    pose proof (quiet_outcomes_are_published _ _ _ Hlen Hos Hquiet)
      as Hpublished.
    destruct (published_events_found mergeCommitSha _ _ base Hlen Hpublished
                Hbase) as (before & d1 & d2 & d3 & after & ->).
    exists d1, d3.
    split; apply elem_of_app; right;
      apply (published_requests mergeCommitSha base d1 d2 d3 before after).
Qed.

(** C5 (the defect) — When [__proto__] is one of the routed base
    branches and no call of the run fails, the pull request for that branch
    is created and finished like any other, yet the returned result object
    has no key [__proto__] and the run sends no failure comment and no
    failure labels: the routed base branch is missing from the result
    without any recovery on the source pull request. *)
Theorem proto_target_is_published_but_not_recorded st m st' evs :
  backport st = (inr m, st') →
  log st' = log st ++ evs →
  Forall (λ event, failure event = None) evs →
  "__proto__" ∈ routed labelRegExp payload →
  m !! "__proto__" = None
  ∧ (∃ before d1 d2 d3 after,
       evs = before
             ++ outcomeEvents mergeCommitSha "__proto__"
                  (Backported d1 d2 d3)
             ++ after)
  ∧ Forall (λ event, recoveryEvent event = false) evs.
Proof.
  intros Hrun Hlog Hquiet Hbase.
  destruct (backport_returns st m st' evs Hrun Hlog)
    as (prelude & os & Hprelude & Hlen & Hos & -> & ->).
  apply Forall_app in Hquiet as [_ Hquiet].
  pose proof (quiet_outcomes_are_published _ _ _ Hlen Hos Hquiet)
    as Hpublished.
  split_and!.
  - by apply recordAll_proto.
  - destruct (published_events_found mergeCommitSha _ _ _ Hlen Hpublished
                Hbase) as (before & d1 & d2 & d3 & after & Hevs).
    exists (prelude ++ before), d1, d2, d3, after.
    by rewrite Hevs, <-app_assoc.
  - apply Forall_app. split.
    + eapply Forall_impl; [exact Hprelude|].
      apply preludeEvent_not_recoveryEvent.
    + by apply published_events_hold_no_recovery.
Qed.

(** X17 — When a run returns and no call of it failed, a routed base
    branch is a key of the result object exactly when it is not
    [__proto__]. *)
Theorem every_target_is_recorded_when_no_call_fails st m st' evs base :
  backport st = (inr m, st') →
  log st' = log st ++ evs →
  Forall (λ event, failure event = None) evs →
  base ∈ routed labelRegExp payload →
  is_Some (m !! base) ↔ base ≠ "__proto__".
Proof.
  intros Hrun Hlog Hquiet Hbase.
  destruct (backport_returns st m st' evs Hrun Hlog)
    as (prelude & os & _ & Hlen & Hos & -> & ->).
  split.
  - intros [number Hm] ->.
    rewrite recordAll_proto in Hm by done. done.
  - intros Hproto.
    destruct (recordAll_accounted getBody getHead getTitle labelRegExp payload
                runId serverUrl teamReviews mergeCommitSha
                (routed labelRegExp payload) os ∅ Hlen Hos) as [_ Hmissing].
    destruct (recordAll ∅ (routed labelRegExp payload) os !! base) eqn:Hm;
      [eauto|].
    destruct (Hmissing base Hbase Hproto Hm)
      as (before & attempt & error & d4 & d5 & after
          & [_ (event & Hin & Hfail)] & Hevs).
    rewrite Hevs in Hquiet. rewrite Forall_forall in Hquiet.
    assert (failure event = None) as Hnone; [|congruence].
    apply Hquiet. rewrite !elem_of_app. right. right. left. simpl.
    apply list_elem_of_further. rewrite elem_of_app. by left.
Qed.

End LabelsAndResult.

(** ** The further properties at concrete inputs *)

(** X3 at a pattern without [base]: the error is the one for the first
    label the pattern matches. *)
Lemma router_throws_for_the_first_label_without_base_witness :
  getBaseBranches misnamed (closedEvent misroutedLabels (Some true)
                              (Some "abc123"))
  = inl {| message := missingBaseMessage misnamed "backport 5.3" |}
  ∧ ∃ before label after,
      misroutedLabels = before ++ label :: after
      ∧ Forall (λ label, lacksBase misnamed label = false) before
      ∧ lacksBase misnamed label = true
      ∧ missingBaseMessage misnamed "backport 5.3"
        = "RegExp " +:+ dquote +:+ "/" +:+ RegExp.source misnamed +:+ "/"
          +:+ dquote +:+ " matched " +:+ dquote +:+ label +:+ dquote
          +:+ " but missed a " +:+ dquote +:+ "base" +:+ dquote
          +:+ " named capturing group.".
Proof.
  assert (getBaseBranches misnamed
            (closedEvent misroutedLabels (Some true) (Some "abc123"))
          = inl {| message := missingBaseMessage misnamed "backport 5.3" |})
    as Hthrow by reflexivity.
  split; [exact Hthrow|].
  exact (router_throws_for_the_first_label_without_base misnamed _ _ Hthrow).
Defined.

(** X4 at the sample event. *)
Lemma router_returns_the_captures_witness :
  getBaseBranches afterBase sampleEvent = inr ["5.3"; "5.4"]
  ∧ ["5.3"; "5.4"] = omap (baseCapture afterBase) sampleLabels
  ∧ Forall (λ base, base ≠ "") ["5.3"; "5.4"]
  ∧ (2 ≤ 3)%nat.
Proof.
  assert (getBaseBranches afterBase sampleEvent = inr ["5.3"; "5.4"])
    as Hroute by reflexivity.
  split; [exact Hroute|].
  exact (router_returns_the_captures afterBase sampleEvent _ Hroute).
Defined.

(** X5 at a labeled event of a pull request that carries three labels,
    against the same event for a pull request without any. *)
Lemma labeled_event_routes_its_label_only_witness :
  getBaseBranches afterBase (labeledEvent "backport base:5.4")
  = getBaseBranches afterBase
      (unlabelledPullRequestEvent "backport base:5.4")
  ∧ ∀ baseBranches,
      getBaseBranches afterBase (labeledEvent "backport base:5.4")
      = inr baseBranches →
      (length baseBranches ≤ 1)%nat.
Proof.
  exact (labeled_event_routes_its_label_only afterBase
           (labeledEvent "backport base:5.4")
           (unlabelledPullRequestEvent "backport base:5.4")
           {| Label.name := "backport base:5.4" |} eq_refl eq_refl).
Defined.

(** X6 at a run whose settings request is refused. *)
Lemma refused_settings_request_ends_the_run_witness :
  EvRequest (GetRepo "org" "repo") (inl {| message := "no settings" |})
  ∈ log (sampleRun afterBase sampleEvent [Fails "no settings"]).2
  ∧ (sampleRun afterBase sampleEvent [Fails "no settings"]).1
    = inl {| message := "no settings" |}
  ∧ log (sampleRun afterBase sampleEvent [Fails "no settings"]).2
    = [EvRequest (GetRepo "org" "repo")
         (inl {| message := "no settings" |})].
Proof.
  assert (EvRequest (GetRepo "org" "repo")
            (inl {| message := "no settings" |})
          ∈ log (sampleRun afterBase sampleEvent [Fails "no settings"]).2)
    as Hin by (vm_compute; apply list_elem_of_here).
  split; [exact Hin|].
  exact (refused_settings_request_ends_the_run sampleBody sampleHead
           sampleTitle afterBase sampleEvent 7 "https://github.com" "release"
           "TOKEN" (start [Fails "no settings"]) _ _
           (log (sampleRun afterBase sampleEvent [Fails "no settings"]).2)
           "org" "repo" {| message := "no settings" |}
           (surjective_pairing _) eq_refl Hin).
Defined.

(** X7 at a run whose repository allows merge commits. *)
Lemma warning_follows_the_settings_witness :
  EvRequest (GetRepo "org" "repo") (inr mergeCommitsAllowed)
  ∈ log (sampleRun afterBase sampleEvent [Succeeds mergeCommitsAllowed]).2
  ∧ EvWarning squashWarning
    ∈ log (sampleRun afterBase sampleEvent [Succeeds mergeCommitsAllowed]).2.
Proof.
  assert (EvRequest (GetRepo "org" "repo") (inr mergeCommitsAllowed)
          ∈ log (sampleRun afterBase sampleEvent
                   [Succeeds mergeCommitsAllowed]).2)
    as Hin by (vm_compute; apply list_elem_of_here).
  split; [exact Hin|].
  exact (proj2 (warning_follows_the_settings sampleBody sampleHead
                  sampleTitle afterBase sampleEvent 7 "https://github.com"
                  "release" "TOKEN" (start [Succeeds mergeCommitsAllowed])
                  _ _
                  (log (sampleRun afterBase sampleEvent
                          [Succeeds mergeCommitsAllowed]).2)
                  (surjective_pairing _) eq_refl)
           "org" "repo" mergeCommitsAllowed Hin eq_refl).
Defined.

(** X8 at a merged pull request whose only label is [team/x]. *)
Lemma no_target_no_call_witness :
  getBaseBranches afterBase
    (closedEvent ["team/x"] (Some true) (Some "abc123")) = inr []
  ∧ sampleRun afterBase (closedEvent ["team/x"] (Some true) (Some "abc123"))
      preludeAnswers
    = (inr ∅,
       {| world := preludeAnswers;
          log := [EvInfo "No backports required."] |}).
Proof.
  split; [reflexivity|].
  exact (no_target_no_call sampleBody sampleHead sampleTitle afterBase
           (closedEvent ["team/x"] (Some true) (Some "abc123")) 7
           "https://github.com" "release" "TOKEN" (start preludeAnswers)
           eq_refl eq_refl eq_refl).
Defined.

(** X9 at the run in which [5.3] fails and [5.4] is published. *)
Lemma the_clone_comes_once_and_first_witness :
  EvStartGroup "Backporting to 5.3 on backport-42-to-5.3."
  ∈ log (sampleRun afterBase sampleEvent
           (preludeAnswers ++ conflictThenPublished)).2
  ∧ (length
       (filter (λ event, isClone event = true)
          (log (sampleRun afterBase sampleEvent
                  (preludeAnswers ++ conflictThenPublished)).2))
     ≤ 1)%nat
  ∧ ∃ data cloneUrl rest,
      log (sampleRun afterBase sampleEvent
             (preludeAnswers ++ conflictThenPublished)).2
      = announcement sampleEvent data
        ++ map setupEvent (setupCommands cloneUrl)
        ++ rest
      ∧ Forall (λ event, preLoopOnly event = false ∧ isClone event = false)
          rest.
Proof.
  assert (EvStartGroup "Backporting to 5.3 on backport-42-to-5.3."
          ∈ log (sampleRun afterBase sampleEvent
                   (preludeAnswers ++ conflictThenPublished)).2) as Hin.
  { apply list_elem_of_lookup. exists 5%nat. vm_compute. reflexivity. }
  split; [exact Hin|].
  pose proof (the_clone_comes_once_and_first sampleBody sampleHead
                sampleTitle afterBase sampleEvent 7 "https://github.com"
                "release" "TOKEN"
                (start (preludeAnswers ++ conflictThenPublished)) _ _
                (log (sampleRun afterBase sampleEvent
                        (preludeAnswers ++ conflictThenPublished)).2)
                (surjective_pairing _) eq_refl) as [Honce Hfirst].
  split; [exact Honce|]. exact (Hfirst _ Hin).
Defined.

(** X10 at the same run. *)
Lemma commands_of_a_run_witness :
  Forall (runCommand "repo")
    (log (sampleRun afterBase sampleEvent
            (preludeAnswers ++ conflictThenPublished)).2).
Proof.
  exact (commands_of_a_run sampleBody sampleHead sampleTitle afterBase
           sampleEvent 7 "https://github.com" "release" "TOKEN"
           (start (preludeAnswers ++ conflictThenPublished)) _ _
           (log (sampleRun afterBase sampleEvent
                   (preludeAnswers ++ conflictThenPublished)).2)
           (surjective_pairing _) eq_refl).
Defined.

(** X14 at the same run. *)
Lemma recovery_goes_to_the_source_pull_request_witness :
  Forall (addressed sampleEvent ["5.3"; "5.4"])
    (log (sampleRun afterBase sampleEvent
            (preludeAnswers ++ conflictThenPublished)).2).
Proof.
  exact (recovery_goes_to_the_source_pull_request sampleBody sampleHead
           sampleTitle afterBase sampleEvent 7 "https://github.com" "release"
           "TOKEN" (start (preludeAnswers ++ conflictThenPublished)) _ _
           (log (sampleRun afterBase sampleEvent
                   (preludeAnswers ++ conflictThenPublished)).2)
           (surjective_pairing _) eq_refl).
Defined.

(** X16 at the run that ends with a refused failure comment. *)
Lemma groups_are_closed_and_never_nested_witness :
  (sampleRun afterBase sampleEvent (preludeAnswers ++ conflictThenRefused)).1
  = inl {| message := "comment refused" |}
  ∧ balanced false
      (log (sampleRun afterBase sampleEvent
              (preludeAnswers ++ conflictThenRefused)).2)
    = true.
Proof.
  split; [vm_compute; reflexivity|].
  exact (groups_are_closed_and_never_nested sampleBody sampleHead
           sampleTitle afterBase sampleEvent 7 "https://github.com" "release"
           "TOKEN" (start (preludeAnswers ++ conflictThenRefused)) _ _
           (log (sampleRun afterBase sampleEvent
                   (preludeAnswers ++ conflictThenRefused)).2)
           (surjective_pairing _) eq_refl).
Defined.

(** X17 at a run in which every call goes through. *)
Lemma every_target_is_recorded_when_no_call_fails_witness :
  sampleRun afterBase sampleEvent bothPublished
  = (inr {[ "5.3" := 100; "5.4" := 101 ]},
     (sampleRun afterBase sampleEvent bothPublished).2)
  ∧ Forall (λ event, failure event = None)
      (log (sampleRun afterBase sampleEvent bothPublished).2)
  ∧ (is_Some (({[ "5.3" := 100; "5.4" := 101 ]} : gmap string Z) !! "5.4")
     ↔ "5.4" ≠ "__proto__").
Proof.
  assert (sampleRun afterBase sampleEvent bothPublished
          = (inr {[ "5.3" := 100; "5.4" := 101 ]},
             (sampleRun afterBase sampleEvent bothPublished).2)) as Hrun
    by (vm_compute; reflexivity).
  assert (Forall (λ event, failure event = None)
            (log (sampleRun afterBase sampleEvent bothPublished).2))
    as Hquiet by (vm_compute; repeat constructor).
  split; [exact Hrun|]. split; [exact Hquiet|].
  refine (every_target_is_recorded_when_no_call_fails sampleBody sampleHead
            sampleTitle afterBase sampleEvent 7 "https://github.com"
            "release" "TOKEN" (start bothPublished) _ _
            (log (sampleRun afterBase sampleEvent bothPublished).2) "5.4"
            Hrun eq_refl Hquiet _).
  vm_compute. apply list_elem_of_further, list_elem_of_here.
Defined.

(** X11 at an attempt whose reviewers request is refused. *)
Lemma requests_need_the_pushed_branch_witness :
  EvRequest
    (RequestReviewers "org" 101 "repo" ["alice"; "bob"] (Some ["release"]))
    (inl {| message := "reviewers refused" |})
  ∈ log (sampleAttempt createdThenRefused).2
  ∧ ∃ created rest,
      log (sampleAttempt createdThenRefused).2
      = [ EvExec "git" ["switch"; "5.4"] (Some "repo") None;
          EvExec "git" ["switch"; "--create"; "backport-42-to-5.4"]
            (Some "repo") None;
          EvExec "git" ["cherry-pick"; "-x"; "abc123"] (Some "repo") None;
          EvExec "git"
            ["push"; "--set-upstream"; "origin"; "backport-42-to-5.4"]
            (Some "repo") None;
          EvRequest
            (CreatePull "5.4" (bodyFor sampleBody sampleEvent "abc123" "5.4")
               "backport-42-to-5.4" "org" "repo"
               (titleFor sampleTitle sampleEvent "5.4"))
            created ]
        ++ rest
      ∧ Forall (λ event, isCommand event = false
                         ∧ isCreatePull event = false) rest.
Proof.
  assert (EvRequest
            (RequestReviewers "org" 101 "repo" ["alice"; "bob"]
               (Some ["release"]))
            (inl {| message := "reviewers refused" |})
          ∈ log (sampleAttempt createdThenRefused).2) as Hin.
  { apply list_elem_of_lookup. exists 5%nat. vm_compute. reflexivity. }
  split; [exact Hin|].
  exact (requests_need_the_pushed_branch "abc123" _ "5.4" _ _
           "backport-42-to-5.4" _ _ "org" "repo" _ _
           (start createdThenRefused) _ _
           (log (sampleAttempt createdThenRefused).2) _ _
           (surjective_pairing _) eq_refl Hin).
Defined.

(** X12 at an attempt whose cherry-pick conflicts. *)
Lemma abort_only_after_a_failed_cherry_pick_witness :
  EvExec "git" ["cherry-pick"; "--abort"] (Some "repo") None
  ∈ log (sampleAttempt [ok; ok; Fails "conflict"; ok]).2
  ∧ ∃ error,
      EvExec "git" ["cherry-pick"; "-x"; "abc123"] (Some "repo") (Some error)
      ∈ log (sampleAttempt [ok; ok; Fails "conflict"; ok]).2.
Proof.
  assert (EvExec "git" ["cherry-pick"; "--abort"] (Some "repo") None
          ∈ log (sampleAttempt [ok; ok; Fails "conflict"; ok]).2) as Hin.
  { apply list_elem_of_lookup. exists 3%nat. vm_compute. reflexivity. }
  split; [exact Hin|].
  exact (abort_only_after_a_failed_cherry_pick "abc123" _ "5.4" _ _ _ _ _ _
           "repo" _ _ (start [ok; ok; Fails "conflict"; ok]) _ _
           (log (sampleAttempt [ok; ok; Fails "conflict"; ok]).2) "git"
           (Some "repo") None (surjective_pairing _) eq_refl Hin).
Defined.

(** X18 at an attempt for a pull request of alice merged by bob. *)
Lemma reviewers_are_the_author_and_the_merger_witness :
  EvRequest
    (RequestReviewers "org" 101 "repo" ["alice"; "bob"] (Some ["release"]))
    (inl {| message := "reviewers refused" |})
  ∈ log (sampleAttempt createdThenRefused).2
  ∧ NoDup ["alice"; "bob"]
  ∧ ["alice"; "bob"] !! 0%nat = Some "alice"
  ∧ (∀ x, x ∈ ["alice"; "bob"] ↔ x = "alice" ∨ (x = "bob" ∧ "bob" ≠ ""))
  ∧ ("release" = "" → Some ["release"] = None)
  ∧ ("release" ≠ "" → Some ["release"] = Some ["release"]).
Proof.
  assert (EvRequest
            (RequestReviewers "org" 101 "repo" ["alice"; "bob"]
               (Some ["release"]))
            (inl {| message := "reviewers refused" |})
          ∈ log (sampleAttempt createdThenRefused).2) as Hin.
  { apply list_elem_of_lookup. exists 5%nat. vm_compute. reflexivity. }
  split; [exact Hin|].
  exact (reviewers_are_the_author_and_the_merger "abc123" "alice" "5.4" _ _
           _ _ "bob" _ _ "release" _ (start createdThenRefused) _ _
           (log (sampleAttempt createdThenRefused).2) _ _ _ _ _ _
           (surjective_pairing _) eq_refl Hin).
Defined.

(** X13 at a turn whose pull request is created and whose reviewers
    request is refused. *)
Lemma refused_publisher_request_fails_the_target_witness :
  sampleTurn createdThenRefused = (inr ∅, (sampleTurn createdThenRefused).2)
  ∧ EvRequest
      (RequestReviewers "org" 101 "repo" ["alice"; "bob"] (Some ["release"]))
      (inl {| message := "reviewers refused" |})
    ∈ log (sampleTurn createdThenRefused).2
  ∧ EvError {| message := "reviewers refused" |}
    ∈ log (sampleTurn createdThenRefused).2
  ∧ (∃ d,
       EvRequest
         (failureComment sampleHead sampleEvent 7 "https://github.com"
            "abc123" "5.4" {| message := "reviewers refused" |})
         (inr d)
       ∈ log (sampleTurn createdThenRefused).2)
  ∧ (∃ d,
       EvRequest (failureLabelling sampleEvent "5.4") (inr d)
       ∈ log (sampleTurn createdThenRefused).2).
Proof.
  assert (sampleTurn createdThenRefused
          = (inr ∅, (sampleTurn createdThenRefused).2)) as Hrun
    by (vm_compute; reflexivity).
  assert (EvRequest
            (RequestReviewers "org" 101 "repo" ["alice"; "bob"]
               (Some ["release"]))
            (inl {| message := "reviewers refused" |})
          ∈ log (sampleTurn createdThenRefused).2) as Hin.
  { apply list_elem_of_lookup. exists 6%nat. vm_compute. reflexivity. }
  split; [exact Hrun|]. split; [exact Hin|].
  exact (proj2 (refused_publisher_request_fails_the_target sampleBody
                  sampleHead sampleTitle afterBase sampleEvent 7
                  "https://github.com" "release" "TOKEN" "abc123" ∅ "5.4"
                  (start createdThenRefused) ∅ _
                  (log (sampleTurn createdThenRefused).2)
                  (RequestReviewers "org" 101 "repo" ["alice"; "bob"]
                     (Some ["release"]))
                  {| message := "reviewers refused" |}
                  Hrun eq_refl eq_refl Hin)).
Defined.

(** ** The labels and the result object at concrete inputs *)

(** C10, as stated, fails: the pull request for [5.3] is created as #100,
    its reviewers request is refused, and no labelling request for #100 is
    ever sent; the target is recovered from and the run returns with
    [5.4] alone in its result. *)
Lemma unreviewed_pull_request_stays_unlabelled :
  (sampleRun afterBase sampleEvent unreviewedThenPublished).1
  = inr {[ "5.4" := 101 ]}
  ∧ EvRequest
      (CreatePull "5.3" (bodyFor sampleBody sampleEvent "abc123" "5.3")
         "backport-42-to-5.3" "org" "repo"
         (titleFor sampleTitle sampleEvent "5.3"))
      (inr {| Data.allow_merge_commit := false;
              Data.allow_rebase_merge := false;
              Data.number := 100 |})
    ∈ log (sampleRun afterBase sampleEvent unreviewedThenPublished).2
  ∧ Forall (λ event, labelsPullRequest 100 event = false)
      (log (sampleRun afterBase sampleEvent unreviewedThenPublished).2).
Proof.
  split; [vm_compute; reflexivity|]. split.
  - apply list_elem_of_lookup. exists 10%nat. vm_compute. reflexivity.
  - vm_compute. repeat constructor.
Qed.

(** C10 (amended) at that run: #100 has its reviewers request refused,
    and #101, which the result records, has the labels of [5.4] put on
    it. *)
Lemma backport_labels_are_applied_witness :
  sampleRun afterBase sampleEvent unreviewedThenPublished
  = (inr {[ "5.4" := 101 ]},
     (sampleRun afterBase sampleEvent unreviewedThenPublished).2)
  ∧ labelsFor afterBase sampleEvent "5.4"
    = ["team/x"; "backports"; "backported-to-5.4"]
  ∧ ∃ d,
      EvRequest
        (SetLabels 101 (labelsFor afterBase sampleEvent "5.4") "org" "repo")
        (inr d)
      ∈ log (sampleRun afterBase sampleEvent unreviewedThenPublished).2.
Proof.
  assert (sampleRun afterBase sampleEvent unreviewedThenPublished
          = (inr {[ "5.4" := 101 ]},
             (sampleRun afterBase sampleEvent unreviewedThenPublished).2))
    as Hrun by (vm_compute; reflexivity).
  assert (({[ "5.4" := 101 ]} : gmap string Z) !! "5.4" = Some 101) as Hkey
    by (vm_compute; reflexivity).
  split; [exact Hrun|]. split; [vm_compute; reflexivity|].
  exact (proj1 (proj2 (proj2
           (backport_labels_are_applied sampleBody sampleHead sampleTitle
              afterBase sampleEvent 7 "https://github.com" "release" "TOKEN"
              (start unreviewedThenPublished) _ _
              (log (sampleRun afterBase sampleEvent
                      unreviewedThenPublished).2)
              Hrun eq_refl)))
           {[ "5.4" := 101 ]} "5.4" 101 eq_refl Hkey).
Defined.

(** C5 (the defect) at the failing input: pull request #42 carries the
    label [backport base:__proto__] and every call is accepted.  The
    backport is published as #100, the result object is empty, and no
    recovery request is sent. *)
Lemma proto_target_is_published_but_not_recorded_witness :
  getBaseBranches afterBase protoEvent = inr ["__proto__"]
  ∧ sampleRun afterBase protoEvent onePublished
    = (inr ∅, (sampleRun afterBase protoEvent onePublished).2)
  ∧ Forall (λ event, failure event = None)
      (log (sampleRun afterBase protoEvent onePublished).2)
  ∧ (∅ : gmap string Z) !! "__proto__" = None
  ∧ (∃ before d1 d2 d3 after,
       log (sampleRun afterBase protoEvent onePublished).2
       = before
         ++ outcomeEvents sampleBody sampleHead sampleTitle afterBase
              protoEvent 7 "https://github.com" "release" "abc123"
              "__proto__" (Backported d1 d2 d3)
         ++ after)
  ∧ Forall (λ event, recoveryEvent event = false)
      (log (sampleRun afterBase protoEvent onePublished).2).
Proof.
  assert (sampleRun afterBase protoEvent onePublished
          = (inr ∅, (sampleRun afterBase protoEvent onePublished).2))
    as Hrun by (vm_compute; reflexivity).
  assert (Forall (λ event, failure event = None)
            (log (sampleRun afterBase protoEvent onePublished).2))
    as Hquiet by (vm_compute; repeat constructor).
  assert ("__proto__" ∈ routed afterBase protoEvent) as Hrouted
    by (vm_compute; apply list_elem_of_here).
  split; [vm_compute; reflexivity|].
  split; [exact Hrun|]. split; [exact Hquiet|].
  exact (proto_target_is_published_but_not_recorded sampleBody sampleHead
           sampleTitle afterBase protoEvent 7 "https://github.com" "release"
           "TOKEN" (start onePublished) ∅ _
           (log (sampleRun afterBase protoEvent onePublished).2)
           Hrun eq_refl Hquiet Hrouted).
Defined.
